(** * SRP-6a client core of sjcl (core/srp.js): a shallow embedding

    The file [core/srp.js] defines the object [sjcl.keyexchange.srp]: the
    registry of the RFC 5054 groups ([knownGroup], [_initKnownGroups],
    [_knownGroups]) and the protocol functions ([makeVerifier], [_pad],
    [_makeK], [_makeX], [_makeU], [makeA], [makeClientKey], [makeM1],
    [makeM2]).  The functions are embedded below in a state-and-exception
    monad over the two mutable properties of that object; the collaborators
    the file calls ([sjcl.bn], [sjcl.bitArray], [sjcl.hash.sha1],
    [sjcl.codec.utf8String]) live in other files of the library and are
    modelled from their specified interface. *)

From Stdlib Require Import ZArith List Lia String Ascii Bool.
From Stdlib Require Znumtheory Zpow_facts.
From stdpp Require Import base option list gmap strings pretty.

Local Open Scope Z_scope.

(** ** Values *)

(** A property of a group object holds, over its life, the literal of the
    object initialiser (a hexadecimal string for [N], a small number for
    [g]) and then the [sjcl.bn] built from it. *)
Inductive field : Type :=
  | Str (s : string)
  | Num (n : Z)
  | Bn (z : Z).

Module Group.
Record t : Type := mk { N : field; g : field }.
End Group.

(** What a caller hands to [knownGroup]. [JNum n] is the integer-valued
    Number [n]. *)
Inductive jsarg : Type :=
  | JStr (s : string)
  | JNum (n : Z)
  | JUndefined
  | JNull.

(** What [_knownGroups[i]] evaluates to: a reference to one of the group
    objects (objects are shared, so the reference is the key under which
    the object sits in the store), a member inherited from
    [Object.prototype], or [undefined]. *)
Inductive jsval : Type :=
  | VGroup (key : string)
  | VInherited (name : string)
  | VUndefined.

(** [TypeError] is what the engine raises on [undefined.toString()] or on a
    call of a missing method; [UnknownGroup] is the error of the
    specification's taxonomy. *)
Inductive error : Type :=
  | TypeError
  | UnknownGroup.

(** ** The mutable part of [sjcl.keyexchange.srp] *)

(** The flag, and the object [_knownGroups] as a map from property name to
    the group object under that name.  Each name has a group object of its
    own, as in the initialiser: a registry in which a caller has stored
    one object under two names is not among these states. *)
Record srp_state : Type := mkState {
  _didInitKnownGroups : bool;
  _knownGroups : gmap string Group.t
}.

(** ** The monad: state of the registry, and exceptions that keep it *)

Inductive outcome (A : Type) : Type :=
  | Return (a : A) (st : srp_state)
  | Throw (e : error) (st : srp_state).
Arguments Return {A} a st.
Arguments Throw {A} e st.

Definition M (A : Type) : Type := srp_state -> outcome A.

#[global] Instance M_ret : MRet M := fun A a st => Return a st.
#[global] Instance M_bind : MBind M := fun A B f m st =>
  match m st with
  | Return a st' => f a st'
  | Throw e st' => Throw e st'
  end.

Definition throw {A : Type} (e : error) : M A := fun st => Throw e st.
Definition gets {A : Type} (f : srp_state -> A) : M A := fun st => Return (f st) st.
Definition modify (f : srp_state -> srp_state) : M unit := fun st => Return tt (f st).

Definition state_of {A : Type} (o : outcome A) : srp_state :=
  match o with Return _ st => st | Throw _ st => st end.

Definition value_of {A : Type} (o : outcome A) : error + A :=
  match o with Return a _ => inr a | Throw e _ => inl e end.

Definition fails_with {A : Type} (o : outcome A) (e : error) : Prop :=
  exists st, o = Throw e st.

(** ** The catalog, as the object initialiser writes it *)

Definition _knownGroupSizes : list Z := [1024; 1536; 2048; 3072; 4096; 6144; 8192].

Definition _knownGroups_literal : gmap string Group.t :=
  list_to_map [
    ("1024", Group.mk
      (Str (
         "EEAF0AB9ADB38DD69C33F80AFA8FC5E86072618775FF3C0B9EA2314C" +:+
         "9C256576D674DF7496EA81D3383B4813D692C6E0E0D5D8E250B98BE4" +:+
         "8E495C1D6089DAD15DC7D7B46154D6B6CE8EF4AD69B15D4982559B29" +:+
         "7BCF1885C529F566660E57EC68EDBC3C05726CC02FD4CBF4976EAA9A" +:+
         "FD5138FE8376435B9FC61D2FC0EB06E3"))
      (Num 2));
    ("1536", Group.mk
      (Str (
         "9DEF3CAFB939277AB1F12A8617A47BBBDBA51DF499AC4C80BEEEA961" +:+
         "4B19CC4D5F4F5F556E27CBDE51C6A94BE4607A291558903BA0D0F843" +:+
         "80B655BB9A22E8DCDF028A7CEC67F0D08134B1C8B97989149B609E0B" +:+
         "E3BAB63D47548381DBC5B1FC764E3F4B53DD9DA1158BFD3E2B9C8CF5" +:+
         "6EDF019539349627DB2FD53D24B7C48665772E437D6C7F8CE442734A" +:+
         "F7CCB7AE837C264AE3A9BEB87F8A2FE9B8B5292E5A021FFF5E91479E" +:+
         "8CE7A28C2442C6F315180F93499A234DCF76E3FED135F9BB"))
      (Num 2));
    ("2048", Group.mk
      (Str (
         "AC6BDB41324A9A9BF166DE5E1389582FAF72B6651987EE07FC319294" +:+
         "3DB56050A37329CBB4A099ED8193E0757767A13DD52312AB4B03310D" +:+
         "CD7F48A9DA04FD50E8083969EDB767B0CF6095179A163AB3661A05FB" +:+
         "D5FAAAE82918A9962F0B93B855F97993EC975EEAA80D740ADBF4FF74" +:+
         "7359D041D5C33EA71D281E446B14773BCA97B43A23FB801676BD207A" +:+
         "436C6481F1D2B9078717461A5B9D32E688F87748544523B524B0D57D" +:+
         "5EA77A2775D2ECFA032CFBDBF52FB3786160279004E57AE6AF874E73" +:+
         "03CE53299CCC041C7BC308D82A5698F3A8D0C38271AE35F8E9DBFBB6" +:+
         "94B5C803D89F7AE435DE236D525F54759B65E372FCD68EF20FA7111F" +:+
         "9E4AFF73"))
      (Num 2));
    ("3072", Group.mk
      (Str (
         "FFFFFFFFFFFFFFFFC90FDAA22168C234C4C6628B80DC1CD129024E08" +:+
         "8A67CC74020BBEA63B139B22514A08798E3404DDEF9519B3CD3A431B" +:+
         "302B0A6DF25F14374FE1356D6D51C245E485B576625E7EC6F44C42E9" +:+
         "A637ED6B0BFF5CB6F406B7EDEE386BFB5A899FA5AE9F24117C4B1FE6" +:+
         "49286651ECE45B3DC2007CB8A163BF0598DA48361C55D39A69163FA8" +:+
         "FD24CF5F83655D23DCA3AD961C62F356208552BB9ED529077096966D" +:+
         "670C354E4ABC9804F1746C08CA18217C32905E462E36CE3BE39E772C" +:+
         "180E86039B2783A2EC07A28FB5C55DF06F4C52C9DE2BCBF695581718" +:+
         "3995497CEA956AE515D2261898FA051015728E5A8AAAC42DAD33170D" +:+
         "04507A33A85521ABDF1CBA64ECFB850458DBEF0A8AEA71575D060C7D" +:+
         "B3970F85A6E1E4C7ABF5AE8CDB0933D71E8C94E04A25619DCEE3D226" +:+
         "1AD2EE6BF12FFA06D98A0864D87602733EC86A64521F2B18177B200C" +:+
         "BBE117577A615D6C770988C0BAD946E208E24FA074E5AB3143DB5BFC" +:+
         "E0FD108E4B82D120A93AD2CAFFFFFFFFFFFFFFFF"))
      (Num 5));
    ("4096", Group.mk
      (Str (
         "FFFFFFFFFFFFFFFFC90FDAA22168C234C4C6628B80DC1CD129024E08" +:+
         "8A67CC74020BBEA63B139B22514A08798E3404DDEF9519B3CD3A431B" +:+
         "302B0A6DF25F14374FE1356D6D51C245E485B576625E7EC6F44C42E9" +:+
         "A637ED6B0BFF5CB6F406B7EDEE386BFB5A899FA5AE9F24117C4B1FE6" +:+
         "49286651ECE45B3DC2007CB8A163BF0598DA48361C55D39A69163FA8" +:+
         "FD24CF5F83655D23DCA3AD961C62F356208552BB9ED529077096966D" +:+
         "670C354E4ABC9804F1746C08CA18217C32905E462E36CE3BE39E772C" +:+
         "180E86039B2783A2EC07A28FB5C55DF06F4C52C9DE2BCBF695581718" +:+
         "3995497CEA956AE515D2261898FA051015728E5A8AAAC42DAD33170D" +:+
         "04507A33A85521ABDF1CBA64ECFB850458DBEF0A8AEA71575D060C7D" +:+
         "B3970F85A6E1E4C7ABF5AE8CDB0933D71E8C94E04A25619DCEE3D226" +:+
         "1AD2EE6BF12FFA06D98A0864D87602733EC86A64521F2B18177B200C" +:+
         "BBE117577A615D6C770988C0BAD946E208E24FA074E5AB3143DB5BFC" +:+
         "E0FD108E4B82D120A92108011A723C12A787E6D788719A10BDBA5B26" +:+
         "99C327186AF4E23C1A946834B6150BDA2583E9CA2AD44CE8DBBBC2DB" +:+
         "04DE8EF92E8EFC141FBECAA6287C59474E6BC05D99B2964FA090C3A2" +:+
         "233BA186515BE7ED1F612970CEE2D7AFB81BDD762170481CD0069127" +:+
         "D5B05AA993B4EA988D8FDDC186FFB7DC90A6C08F4DF435C934063199" +:+
         "FFFFFFFFFFFFFFFF"))
      (Num 5));
    ("6144", Group.mk
      (Str (
         "FFFFFFFFFFFFFFFFC90FDAA22168C234C4C6628B80DC1CD129024E08" +:+
         "8A67CC74020BBEA63B139B22514A08798E3404DDEF9519B3CD3A431B" +:+
         "302B0A6DF25F14374FE1356D6D51C245E485B576625E7EC6F44C42E9" +:+
         "A637ED6B0BFF5CB6F406B7EDEE386BFB5A899FA5AE9F24117C4B1FE6" +:+
         "49286651ECE45B3DC2007CB8A163BF0598DA48361C55D39A69163FA8" +:+
         "FD24CF5F83655D23DCA3AD961C62F356208552BB9ED529077096966D" +:+
         "670C354E4ABC9804F1746C08CA18217C32905E462E36CE3BE39E772C" +:+
         "180E86039B2783A2EC07A28FB5C55DF06F4C52C9DE2BCBF695581718" +:+
         "3995497CEA956AE515D2261898FA051015728E5A8AAAC42DAD33170D" +:+
         "04507A33A85521ABDF1CBA64ECFB850458DBEF0A8AEA71575D060C7D" +:+
         "B3970F85A6E1E4C7ABF5AE8CDB0933D71E8C94E04A25619DCEE3D226" +:+
         "1AD2EE6BF12FFA06D98A0864D87602733EC86A64521F2B18177B200C" +:+
         "BBE117577A615D6C770988C0BAD946E208E24FA074E5AB3143DB5BFC" +:+
         "E0FD108E4B82D120A92108011A723C12A787E6D788719A10BDBA5B26" +:+
         "99C327186AF4E23C1A946834B6150BDA2583E9CA2AD44CE8DBBBC2DB" +:+
         "04DE8EF92E8EFC141FBECAA6287C59474E6BC05D99B2964FA090C3A2" +:+
         "233BA186515BE7ED1F612970CEE2D7AFB81BDD762170481CD0069127" +:+
         "D5B05AA993B4EA988D8FDDC186FFB7DC90A6C08F4DF435C934028492" +:+
         "36C3FAB4D27C7026C1D4DCB2602646DEC9751E763DBA37BDF8FF9406" +:+
         "AD9E530EE5DB382F413001AEB06A53ED9027D831179727B0865A8918" +:+
         "DA3EDBEBCF9B14ED44CE6CBACED4BB1BDB7F1447E6CC254B33205151" +:+
         "2BD7AF426FB8F401378CD2BF5983CA01C64B92ECF032EA15D1721D03" +:+
         "F482D7CE6E74FEF6D55E702F46980C82B5A84031900B1C9E59E7C97F" +:+
         "BEC7E8F323A97A7E36CC88BE0F1D45B7FF585AC54BD407B22B4154AA" +:+
         "CC8F6D7EBF48E1D814CC5ED20F8037E0A79715EEF29BE32806A1D58B" +:+
         "B7C5DA76F550AA3D8A1FBFF0EB19CCB1A313D55CDA56C9EC2EF29632" +:+
         "387FE8D76E3C0468043E8F663F4860EE12BF2D5B0B7474D6E694F91E" +:+
         "6DCC4024FFFFFFFFFFFFFFFF"))
      (Num 5));
    ("8192", Group.mk
      (Str (
         "FFFFFFFFFFFFFFFFC90FDAA22168C234C4C6628B80DC1CD129024E08" +:+
         "8A67CC74020BBEA63B139B22514A08798E3404DDEF9519B3CD3A431B" +:+
         "302B0A6DF25F14374FE1356D6D51C245E485B576625E7EC6F44C42E9" +:+
         "A637ED6B0BFF5CB6F406B7EDEE386BFB5A899FA5AE9F24117C4B1FE6" +:+
         "49286651ECE45B3DC2007CB8A163BF0598DA48361C55D39A69163FA8" +:+
         "FD24CF5F83655D23DCA3AD961C62F356208552BB9ED529077096966D" +:+
         "670C354E4ABC9804F1746C08CA18217C32905E462E36CE3BE39E772C" +:+
         "180E86039B2783A2EC07A28FB5C55DF06F4C52C9DE2BCBF695581718" +:+
         "3995497CEA956AE515D2261898FA051015728E5A8AAAC42DAD33170D" +:+
         "04507A33A85521ABDF1CBA64ECFB850458DBEF0A8AEA71575D060C7D" +:+
         "B3970F85A6E1E4C7ABF5AE8CDB0933D71E8C94E04A25619DCEE3D226" +:+
         "1AD2EE6BF12FFA06D98A0864D87602733EC86A64521F2B18177B200C" +:+
         "BBE117577A615D6C770988C0BAD946E208E24FA074E5AB3143DB5BFC" +:+
         "E0FD108E4B82D120A92108011A723C12A787E6D788719A10BDBA5B26" +:+
         "99C327186AF4E23C1A946834B6150BDA2583E9CA2AD44CE8DBBBC2DB" +:+
         "04DE8EF92E8EFC141FBECAA6287C59474E6BC05D99B2964FA090C3A2" +:+
         "233BA186515BE7ED1F612970CEE2D7AFB81BDD762170481CD0069127" +:+
         "D5B05AA993B4EA988D8FDDC186FFB7DC90A6C08F4DF435C934028492" +:+
         "36C3FAB4D27C7026C1D4DCB2602646DEC9751E763DBA37BDF8FF9406" +:+
         "AD9E530EE5DB382F413001AEB06A53ED9027D831179727B0865A8918" +:+
         "DA3EDBEBCF9B14ED44CE6CBACED4BB1BDB7F1447E6CC254B33205151" +:+
         "2BD7AF426FB8F401378CD2BF5983CA01C64B92ECF032EA15D1721D03" +:+
         "F482D7CE6E74FEF6D55E702F46980C82B5A84031900B1C9E59E7C97F" +:+
         "BEC7E8F323A97A7E36CC88BE0F1D45B7FF585AC54BD407B22B4154AA" +:+
         "CC8F6D7EBF48E1D814CC5ED20F8037E0A79715EEF29BE32806A1D58B" +:+
         "B7C5DA76F550AA3D8A1FBFF0EB19CCB1A313D55CDA56C9EC2EF29632" +:+
         "387FE8D76E3C0468043E8F663F4860EE12BF2D5B0B7474D6E694F91E" +:+
         "6DBE115974A3926F12FEE5E438777CB6A932DF8CD8BEC4D073B931BA" +:+
         "3BC832B68D9DD300741FA7BF8AFC47ED2576F6936BA424663AAB639C" +:+
         "5AE4F5683423B4742BF1C978238F16CBE39D652DE3FDB8BEFC848AD9" +:+
         "22222E04A4037C0713EB57A81A23F0C73473FC646CEA306B4BCBC886" +:+
         "2F8385DDFA9D4B7FA2C087E879683303ED5BDD3A062B3CF5B3A278A6" +:+
         "6D2A13F83F44F82DDF310EE074AB6A364597E899A0255DC164F31CC5" +:+
         "0846851DF9AB48195DED7EA1B1D510BD7EE74D73FAF36BC31ECFA268" +:+
         "359046F4EB879F924009438B481C6CD7889A002ED5EE382BC9190DA6" +:+
         "FC026E479558E4475677E9AA9E3050E2765694DFC81F56E880B96E71" +:+
         "60C980DD98EDD3DFFFFFFFFFFFFFFFFF"))
      (Num 19))  ].

Definition srp_initial : srp_state :=
  {| _didInitKnownGroups := false; _knownGroups := _knownGroups_literal |}.

(** ** Collaborator: BigInteger ([sjcl.bn]) *)

(** Modelled from the spec: [sjcl.bn] (core/bn.js is not part of this
    file).  The specification describes it as an arbitrary-precision
    integer with add, sub, mul, mulmod, powermod and mod; a [bn] is the
    integer it denotes. *)
Definition bn : Type := Z.

(** Modelled from the spec: [x.add(y)], unbounded integer addition. *)
Definition bn_add (x y : bn) : bn := x + y.

(** Modelled from the spec: [x.sub(y)], integer subtraction; the result
    may be negative. *)
Definition bn_sub (x y : bn) : bn := x - y.

(** Modelled from the spec: [x.mul(y)], unbounded integer multiplication. *)
Definition bn_mul (x y : bn) : bn := x * y.

(** Modelled from the spec: [x.mod(n)], the reduction into [[0, n)]. *)
Definition bn_mod (x n : bn) : bn := x mod n.

(** Modelled from the spec: [x.mulmod(y, n)], modular multiplication. *)
Definition bn_mulmod (x y n : bn) : bn := (x * y) mod n.

(** Modelled from the spec: [x.powermod(e, n)], modular exponentiation. *)
Definition bn_powermod (x e n : bn) : bn := (x ^ e) mod n.

(** The value of one hexadecimal digit, in either case. *)
Definition hex_digit (c : ascii) : option Z :=
  let n := Z.of_nat (nat_of_ascii c) in
  if (48 <=? n) && (n <=? 57) then Some (n - 48)
  else if (65 <=? n) && (n <=? 70) then Some (n - 55)
  else if (97 <=? n) && (n <=? 102) then Some (n - 87)
  else None.

Definition is_hex (s : string) : bool :=
  forallb (fun c => bool_decide (is_Some (hex_digit c))) (list_ascii_of_string s).

(** Modelled from the spec: the integer a hexadecimal literal denotes,
    most significant digit first, as the constructor of [sjcl.bn] reads
    it.  Only strings of hexadecimal digits are in its domain (every
    literal of the catalog is one, [catalog_literals_hex]). *)
Definition hex_value (s : string) : Z :=
  fold_left (fun acc c => 16 * acc + default 0 (hex_digit c)) (list_ascii_of_string s) 0.

(** Modelled from the spec: [new sjcl.bn(it)], which materializes a
    hexadecimal-string literal or a small-integer literal into BigInteger
    form, and copies a BigInteger. *)
Definition bn_new (it : field) : field :=
  match it with
  | Str s => Bn (hex_value s)
  | Num n => Bn n
  | Bn z => Bn z
  end.

(** ** Property access *)

(** [Number.prototype.toString]: the decimal form of an integer-valued
    Number.  It is what the engine prints for the integers up to 2^53 in
    magnitude, every bit size among them; above, the engine prints the
    shortest digits that read back as the same Number, and from 10^21 on
    it uses exponent notation. *)
Definition Number_toString (n : Z) : string := pretty n.

(** [i.toString()] for the receivers [knownGroup] can meet. *)
Definition toString (i : jsarg) : M string :=
  match i with
  | JStr s => mret s
  | JNum n => mret (Number_toString n)
  | JUndefined | JNull => throw TypeError
  end.

(** The property names an object initialiser inherits from
    [Object.prototype]. *)
Definition Object_prototype : list string :=
  ["constructor"; "hasOwnProperty"; "isPrototypeOf"; "propertyIsEnumerable";
   "toLocaleString"; "toString"; "valueOf"; "__proto__";
   "__defineGetter__"; "__defineSetter__"; "__lookupGetter__"; "__lookupSetter__"].

(** [o[key]] on the object [_knownGroups]: own properties first, then the
    prototype, else [undefined]. *)
Definition property_get (o : gmap string Group.t) (key : string) : jsval :=
  match o !! key with
  | Some _ => VGroup key
  | None => if bool_decide (key ∈ Object_prototype) then VInherited key else VUndefined
  end.

(** The object behind [group], for the reads [group.N] and [group.g].
    Reading a property of [undefined] raises.  A member inherited from
    [Object.prototype] has no [N] and no [g]: the read gives [undefined]
    and the method call made on it raises the same [TypeError], which the
    embedding raises at the read.  ([_initKnownGroups] meets neither case:
    the keys it looks up are the decimal strings of [_knownGroupSizes].) *)
Definition deref (group : jsval) : M Group.t :=
  match group with
  | VGroup key =>
      groups ← gets _knownGroups;
      match groups !! key with
      | Some o => mret o
      | None => throw TypeError
      end
  | VInherited _ | VUndefined => throw TypeError
  end.

(** [group.N = v] and [group.g = v]. *)
Definition assign_N (group : jsval) (v : field) : M unit :=
  match group with
  | VGroup key =>
      modify (fun st => mkState (_didInitKnownGroups st)
        (alter (fun o => Group.mk v (Group.g o)) key (_knownGroups st)))
  | VInherited _ | VUndefined => throw TypeError
  end.

Definition assign_g (group : jsval) (v : field) : M unit :=
  match group with
  | VGroup key =>
      modify (fun st => mkState (_didInitKnownGroups st)
        (alter (fun o => Group.mk (Group.N o) v) key (_knownGroups st)))
  | VInherited _ | VUndefined => throw TypeError
  end.

(** ** The registry: [_initKnownGroups] and [knownGroup] *)

(** The body of the [for] loop of [_initKnownGroups], for one entry of
    [_knownGroupSizes]. *)
Definition init_one (n : Z) : M unit :=
  let size := Number_toString n in
  groups ← gets _knownGroups;
  let group := property_get groups size in
  o ← deref group;
  assign_N group (bn_new (Group.N o));;
  o ← deref group;
  assign_g group (bn_new (Group.g o)).

Fixpoint init_loop (sizes : list Z) : M unit :=
  match sizes with
  | [] => mret tt
  | n :: rest => init_one n;; init_loop rest
  end.

Definition _initKnownGroups : M unit :=
  init_loop _knownGroupSizes;;
  modify (fun st => mkState true (_knownGroups st)).

Definition knownGroup (i : jsarg) : M jsval :=
  i ← (match i with JStr s => mret s | _ => toString i end);
  didInit ← gets _didInitKnownGroups;
  (if didInit : bool then mret tt : M unit else _initKnownGroups);;
  groups ← gets _knownGroups;
  mret (property_get groups i).

(** ** Collaborator: BitString ([sjcl.bitArray]) *)

(** Modelled from the spec: [sjcl.bitArray] (core/bitArray.js is not part
    of this file).  The specification describes an immutable
    sequence-of-bits value type with concatenation, length and slicing; a
    bit array is the list of its bits, first bit first.  The library
    stores the bits in an array of 32-bit words, which [srp.js] relies on
    in three places ([N.length], [pad[i] = 0] and [hN[i] ^ hg[i]]): the
    word view below gives 32 bits to each word, the last one possibly
    partial. *)
Module bitArray.

(** Modelled from the spec: the BitString value type, a sequence of bits. *)
Definition t : Type := list bool.

(** Modelled from the spec: [sjcl.bitArray.bitLength(a)]. *)
Definition bitLength (a : t) : Z := Z.of_nat (length a).

(** Modelled from the spec: [sjcl.bitArray.concat(a1, a2)]. *)
Definition concat (a1 a2 : t) : t := a1 ++ a2.

(** Modelled from the spec: [sjcl.bitArray.bitSlice(a, bstart, bend)], the
    bits [bstart] (included) to [bend] (excluded); a slice of zero or
    negative length is empty. *)
Definition bitSlice (a : t) (bstart bend : Z) : t :=
  take (Z.to_nat (bend - bstart)) (drop (Z.to_nat bstart) a).

(** [a.length], the number of words. *)
Definition words (a : t) : nat := ((length a + 31) / 32)%nat.

(** [new Array(n)] once every element has been set to [0]. *)
Definition zeros (n : nat) : t := replicate (32 * n) false.

(** [a[i]] as a 32-bit operand of [^]: the bits of the word, missing bits
    (a partial word, or [undefined] past the end) reading as 0. *)
Definition word (a : t) (i : nat) : list bool :=
  take 32 (drop (32 * i) a ++ replicate 32 false).

(** [a[i] = w] for a full word [w]. *)
Definition set_word (a : t) (i : nat) (w : list bool) : t :=
  take (32 * i) a ++ w ++ drop (32 * S i) a.

(** The operator [^] on two words. *)
Definition xor_word (w1 w2 : list bool) : list bool := zip_with xorb w1 w2.

End bitArray.

(** ** Collaborator: the string codec ([sjcl.codec.utf8String]) *)

Module utf8String.

(** The eight bits of a byte, most significant first. *)
Definition byte_bits (c : ascii) : list bool :=
  let '(Ascii b0 b1 b2 b3 b4 b5 b6 b7) := c in [b7; b6; b5; b4; b3; b2; b1; b0].

(** Modelled from the spec: [sjcl.codec.utf8String.toBits]
    (core/codecString.js is not part of this file), through which the
    hash reads a string argument ("encoded as their natural byte/character
    representation").  A string is the sequence of the bytes of its UTF-8
    form, so that [+] on strings is [+:+]. *)
Definition toBits (s : string) : bitArray.t :=
  flat_map byte_bits (list_ascii_of_string s).

End utf8String.

(** What [sjcl.hash.sha1.hash] accepts: a string or a bit array. *)
Inductive hash_input : Type :=
  | Text (s : string)
  | Bits (a : bitArray.t).

(** ** Collaborators for the executable examples

    One instance of each parameter of the protocol functions: the
    big-endian reading of a bit array, the big-endian writing of a
    non-negative integer on whole bytes, and a 160-bit checksum in the
    place of SHA-1. *)
Module Sample.

(** The integer a bit array writes, first bit most significant. *)
Definition fromBits (a : bitArray.t) : bn :=
  fold_left (fun acc (b : bool) => 2 * acc + Z.b2z b) a 0.

(** The bits of a non-negative integer, on the least number of whole
    bytes (one byte for 0). *)
Definition toBits (z : bn) : bitArray.t :=
  let nbits := (8 * Z.to_nat ((Z.log2 z + 8) / 8))%nat in
  map (fun i => Z.testbit z (Z.of_nat i)) (rev (seq 0 nbits)).

(** A checksum of 160 bits. *)
Definition digest (a : bitArray.t) : bitArray.t :=
  let z := fromBits a * 2654435761 + Z.of_nat (length a) + 40503 in
  map (fun i => Z.testbit z (Z.of_nat i)) (rev (seq 0 160)).

(** The inputs of the concrete scenario: a 16-byte salt, a private value
    and two public values. *)
Definition salt : bitArray.t := toBits 0x000102030405060708090A0B0C0D0E0F.
Definition a : bitArray.t := toBits 0x60975527035CF2AD1989806F0407210BC81EDC04E2762A56AFD529DDDA2D4393.
Definition A : bitArray.t := toBits 0x61D5E490F6F1B79547B0704C436F523DD0E560F0C41923BB6B09B4A9DF34E5C5.
Definition B : bitArray.t := toBits 0xBD0C61512C692C0CB6D041FA01BB152D4916A1E77AF46AE105393011BAF38964.
Definition K : bitArray.t := toBits 0xB0DC82BABCF30674AE450C0287745E7990A3381F63B387AAF271A10D233861E3.

End Sample.

(** ** The protocol functions *)

Section SRP.

(** SHA-1 on bit arrays ([sjcl.hash.sha1], core/sha1.js) and the two
    conversions of [sjcl.bn] ([sjcl.bn.fromBits] and [x.toBits()],
    core/bn.js) are not part of this file: they are parameters of the
    development, and nothing below depends on which functions they are. *)
Variable sha1 : bitArray.t -> bitArray.t.
Variable bn_fromBits : bitArray.t -> bn.
Variable bn_toBits : bn -> bitArray.t.

(** [sjcl.hash.sha1.hash(data)]: a string is first turned into bits. *)
Definition sha1_hash (data : hash_input) : bitArray.t :=
  match data with
  | Text s => sha1 (utf8String.toBits s)
  | Bits a => sha1 a
  end.

(** [group.N] and [group.g] where a [bn] is expected: a method called on
    a string or a number raises.  (A group of the registry has both
    properties materialized or neither, so a literal is never met as an
    argument before it is met as a receiver.) *)
Definition as_bn (f : field) : M bn :=
  match f with
  | Bn z => mret z
  | Str _ | Num _ => throw TypeError
  end.

Definition group_N (group : jsval) : M bn := o ← deref group; as_bn (Group.N o).
Definition group_g (group : jsval) : M bn := o ← deref group; as_bn (Group.g o).

Definition _pad (p N : bitArray.t) : bitArray.t :=
  let pad := bitArray.zeros (bitArray.words N) in
  let pad := bitArray.bitSlice pad 0 (bitArray.bitLength N - bitArray.bitLength p) in
  let pad := bitArray.concat pad p in
  pad.

Definition _makeK (group : jsval) : M bitArray.t :=
  N ← group_N group;
  let N := bn_toBits N in
  g ← group_g group;
  let g := bn_toBits g in
  mret (sha1_hash (Bits (bitArray.concat N (_pad g N)))).

Definition _makeX (I P : string) (s : bitArray.t) : bitArray.t :=
  let inner := sha1_hash (Text ((I +:+ ":") +:+ P)) in
  sha1_hash (Bits (bitArray.concat s inner)).

Definition _makeU (A B : bitArray.t) (group : jsval) : M bitArray.t :=
  N ← group_N group;
  let N := bn_toBits N in
  mret (sha1_hash (Bits (bitArray.concat (_pad A N) (_pad B N)))).

Definition makeVerifier (I P : string) (s : bitArray.t) (group : jsval) : M bitArray.t :=
  let x := _makeX I P s in
  let x := bn_fromBits x in
  g ← group_g group;
  N ← group_N group;
  mret (bn_toBits (bn_powermod g x N)).

Definition makeA (a : bitArray.t) (group : jsval) : M bitArray.t :=
  let a := bn_fromBits a in
  g ← group_g group;
  N ← group_N group;
  mret (bn_toBits (bn_powermod g a N)).

Definition makeClientKey (I P : string) (s a A B : bitArray.t) (group : jsval)
  : M bitArray.t :=
  let x := bn_fromBits (_makeX I P s) in
  k ← _makeK group;
  let k := bn_fromBits k in
  u ← _makeU A B group;
  let u := bn_fromBits u in
  g ← group_g group;
  N ← group_N group;
  let key := bn_powermod g x N in
  N ← group_N group;
  let key := bn_mulmod key k N in
  N ← group_N group;
  let key := bn_mod (bn_sub (bn_fromBits B) key) N in
  let power := bn_mul u x in
  let power := bn_add (bn_fromBits a) power in
  N ← group_N group;
  let key := bn_powermod key power N in
  mret (bn_toBits key).

(** The loop [for (i = 0; i < hN.length; ++i) hN[i] = hN[i] ^ hg[i]] of
    [makeM1]; [hN] is the array the hash has just returned. *)
Definition xor_loop (hN hg : bitArray.t) : bitArray.t :=
  fold_left
    (fun hN i => bitArray.set_word hN i
                   (bitArray.xor_word (bitArray.word hN i) (bitArray.word hg i)))
    (seq 0 (bitArray.words hN)) hN.

Definition makeM1 (I : string) (s A B K : bitArray.t) (group : jsval) : M bitArray.t :=
  N ← group_N group;
  let hN := sha1_hash (Bits (bn_toBits N)) in
  g ← group_g group;
  let hg := sha1_hash (Bits (bn_toBits g)) in
  let hN := xor_loop hN hg in
  let out := bitArray.concat hN (sha1_hash (Text I)) in
  let out := bitArray.concat out s in
  let out := bitArray.concat out A in
  let out := bitArray.concat out B in
  let out := bitArray.concat out K in
  let out := sha1_hash (Bits out) in
  mret out.

Definition makeM2 (A M1 K : bitArray.t) : M bitArray.t :=
  let out := bitArray.concat A M1 in
  let out := bitArray.concat out K in
  let out := sha1_hash (Bits out) in
  mret out.

(** ** The states of the registry *)

(** What [_initKnownGroups] makes of one group object. *)
Definition materialize (o : Group.t) : Group.t :=
  Group.mk (bn_new (Group.N o)) (bn_new (Group.g o)).

Definition srp_materialized : srp_state :=
  {| _didInitKnownGroups := true; _knownGroups := materialize <$> _knownGroups_literal |}.

(** The states the registry goes through: the one the file is loaded
    with, and the state any call of [knownGroup] leaves. *)
Inductive reachable : srp_state -> Prop :=
  | reachable_initial : reachable srp_initial
  | reachable_call (i : jsarg) (st : srp_state) :
      reachable st -> reachable (state_of (knownGroup i st)).

(** The states after each call of a sequence of lookups. *)
Fixpoint trace (calls : list jsarg) (st : srp_state) : list srp_state :=
  match calls with
  | [] => []
  | i :: rest => let st' := state_of (knownGroup i st) in st' :: trace rest st'
  end.

(** A bit size, given as a Number or as a string. *)
Definition is_size (i : jsarg) : Prop :=
  match i with JStr _ | JNum _ => True | JUndefined | JNull => False end.

(** The integers below the magnitude from which [toString] uses exponent
    notation. *)
Definition decimal_range (n : Z) : Prop := Z.abs n < 10 ^ 21.

(** In the state [st], [group] refers to a group object that holds the
    BigIntegers [N] and [g]. *)
Definition group_bn (st : srp_state) (group : jsval) (N g : bn) : Prop :=
  exists key, group = VGroup key /\
    _knownGroups st !! key = Some (Group.mk (Bn N) (Bn g)).

(** [group] is a group of the catalog with modulus [N] and generator [g]:
    a reference into the initialized registry whose object holds the two
    BigIntegers. *)
Definition cataloged (st : srp_state) (group : jsval) (N g : bn) : Prop :=
  reachable st /\ _didInitKnownGroups st = true /\ group_bn st group N g.

(** The sizes of the catalog with their decimal strings. *)
Definition size_strings : list (Z * string) :=
  [(1024, "1024"); (1536, "1536"); (2048, "2048"); (3072, "3072");
   (4096, "4096"); (6144, "6144"); (8192, "8192")]%string.

(** A computation that only reads: it ends in the state it started in. *)
Definition read_only {A : Type} (m : M A) : Prop :=
  forall st, state_of (m st) = st.

(** [knownGroup] once its argument has become the string [key]. *)
Definition lookup_key (key : string) : M jsval :=
  didInit ← gets _didInitKnownGroups;
  (if didInit : bool then mret tt : M unit else _initKnownGroups);;
  groups ← gets _knownGroups;
  mret (property_get groups key).

(** The first character of a decimal form: a digit or the sign. *)
Definition starts_decimal (s : string) : bool :=
  match s with
  | String c _ => bool_decide (c ∈ list_ascii_of_string "-0123456789")
  | EmptyString => false
  end.

(** A group object as the initialiser writes it: hexadecimal digits and a
    positive number. *)
Definition literal_group (o : Group.t) : bool :=
  match o with
  | Group.mk (Str s) (Num n) => is_hex s && (0 <? n)
  | _ => false
  end.

(** A group object once materialized: two BigIntegers with [1 < g < N]. *)
Definition bn_group (o : Group.t) : bool :=
  match o with
  | Group.mk (Bn N) (Bn g) => (1 <? g) && (g <? N)
  | _ => false
  end.

(** The BigIntegers the initialized registry holds under [key] (0 where it
    holds none). *)
Definition catalog_N (key : string) : bn :=
  match _knownGroups srp_materialized !! key with
  | Some (Group.mk (Bn z) _) => z
  | _ => 0
  end.

Definition catalog_g (key : string) : bn :=
  match _knownGroups srp_materialized !! key with
  | Some (Group.mk _ (Bn z)) => z
  | _ => 0
  end.

(** A state that is not one the registry goes through, but in which the
    1024-bit group object is the one of the initialized registry: the flag
    is cleared and the largest group is gone. *)
Definition srp_altered : srp_state :=
  {| _didInitKnownGroups := false;
     _knownGroups := delete "8192"%string (_knownGroups srp_materialized) |}.

(** A registry to which a caller has added a group of its own before the
    first lookup. *)
Definition srp_extended : srp_state :=
  {| _didInitKnownGroups := false;
     _knownGroups :=
       <["768" := Group.mk (Str "FFFFFFFFFFFFFFFB") (Num 2)]> _knownGroups_literal |}.

(** A group argument on which no [bn] method can be called: [undefined],
    an inherited member, or a group object that still holds the literals
    of the initialiser. *)
Definition not_materialized (st : srp_state) (group : jsval) : Prop :=
  match group with
  | VUndefined | VInherited _ => True
  | VGroup key =>
      exists s n, _knownGroups st !! key = Some (Group.mk (Str s) (Num n))
  end.

(** The key of a catalog entry is the bit length of its modulus, which is
    odd, and its generator lies strictly between 1 and the modulus and has
    no factor in common with it. *)
Definition catalog_entry (ns : Z * string) : bool :=
  let N := catalog_N ns.2 in
  let g := catalog_g ns.2 in
  (2 ^ (ns.1 - 1) <=? N) && (N <? 2 ^ ns.1) && Z.odd N &&
  (1 <? g) && (g <? N) && (Z.gcd g N =? 1).

(** A materialized group whose generator has no factor in common with its
    modulus. *)
Definition coprime_group (o : Group.t) : bool :=
  match o with
  | Group.mk (Bn N) (Bn g) => Z.gcd g N =? 1
  | _ => false
  end.

(** The number of calls at the head of a sequence of lookups whose
    argument is [undefined] or [null]. *)
Fixpoint leading_failures (calls : list jsarg) : nat :=
  match calls with
  | JUndefined :: rest | JNull :: rest => S (leading_failures rest)
  | _ => 0
  end.

(** The first 16 bits of the sample checksum: a hash small enough for a
    power with its digest as exponent to be evaluated. *)
Definition short_digest (a : bitArray.t) : bitArray.t := take 16 (Sample.digest a).

(** A server value for the 1024-bit group that is congruent to [k * g^x]
    for the credentials ["alice"], ["password123"] and the sample salt,
    with [short_digest] as the hash. *)
Definition degenerate_B : bitArray.t :=
  let N := catalog_N "1024" in
  let g := catalog_g "1024" in
  let Nb := Sample.toBits N in
  let x := Sample.fromBits
    (short_digest (Sample.salt ++
       short_digest (utf8String.toBits "alice:password123"))) in
  let k := Sample.fromBits (short_digest (Nb ++ _pad (Sample.toBits g) Nb)) in
  Sample.toBits ((k * Zpow_facts.Zpow_mod g x N) mod N).

(** * Properties *)

(** ** The monad *)

Lemma bind_Return {A B : Type} (m : M A) (f : A -> M B) (st st' : srp_state) (a : A) :
  m st = Return a st' -> (m ≫= f) st = f a st'.
Proof. intros H. unfold mbind, M_bind. by rewrite H. Qed.

Lemma bind_Throw {A B : Type} (m : M A) (f : A -> M B) (st st' : srp_state) (e : error) :
  m st = Throw e st' -> (m ≫= f) st = Throw e st'.
Proof. intros H. unfold mbind, M_bind. by rewrite H. Qed.

Lemma read_only_ret {A : Type} (a : A) : read_only (mret a : M A).
Proof. by intros st. Qed.

Lemma read_only_throw {A : Type} (e : error) : read_only (throw e : M A).
Proof. by intros st. Qed.

Lemma read_only_gets {A : Type} (f : srp_state -> A) : read_only (gets f).
Proof. by intros st. Qed.

Lemma read_only_bind {A B : Type} (m : M A) (f : A -> M B) :
  read_only m -> (forall a, read_only (f a)) -> read_only (m ≫= f).
Proof.
  intros Hm Hf st. specialize (Hm st). unfold mbind, M_bind.
  destruct (m st) as [a st'|e st']; simpl in Hm; subst st'; [apply Hf | done].
Qed.

(** ** The registry *)

Lemma _initKnownGroups_initial : _initKnownGroups srp_initial = Return tt srp_materialized.
Proof. vm_compute. reflexivity. Qed.

Lemma knownGroup_JStr (s : string) : knownGroup (JStr s) = lookup_key s.
Proof. reflexivity. Qed.

Lemma knownGroup_JNum (n : Z) : knownGroup (JNum n) = lookup_key (Number_toString n).
Proof. reflexivity. Qed.

Lemma lookup_key_initial (key : string) :
  lookup_key key srp_initial =
  Return (property_get (_knownGroups srp_materialized) key) srp_materialized.
Proof.
  unfold lookup_key.
  rewrite (bind_Return _ _ srp_initial srp_initial false) by reflexivity.
  rewrite (bind_Return _ _ srp_initial srp_materialized tt)
    by apply _initKnownGroups_initial.
  reflexivity.
Qed.

Lemma lookup_key_initialized (key : string) (st : srp_state) :
  _didInitKnownGroups st = true ->
  lookup_key key st = Return (property_get (_knownGroups st) key) st.
Proof.
  intros Hflag. unfold lookup_key.
  rewrite (bind_Return _ _ st st true) by (unfold gets; by rewrite Hflag).
  reflexivity.
Qed.

Lemma knownGroup_initialized_state (i : jsarg) (st : srp_state) :
  _didInitKnownGroups st = true -> state_of (knownGroup i st) = st.
Proof.
  intros Hflag. destruct i as [s|n| |].
  - rewrite knownGroup_JStr, lookup_key_initialized; done.
  - rewrite knownGroup_JNum, lookup_key_initialized; done.
  - reflexivity.
  - reflexivity.
Qed.

Lemma knownGroup_initial_state (i : jsarg) :
  is_size i -> state_of (knownGroup i srp_initial) = srp_materialized.
Proof.
  destruct i as [s|n| |]; intros Hi.
  - by rewrite knownGroup_JStr, lookup_key_initial.
  - by rewrite knownGroup_JNum, lookup_key_initial.
  - destruct Hi.
  - destruct Hi.
Qed.

Lemma reachable_inv (st : srp_state) :
  reachable st -> st = srp_initial \/ st = srp_materialized.
Proof.
  induction 1 as [|i st Hst [-> | ->]].
  - by left.
  - destruct i as [s|n| |].
    + right. by apply knownGroup_initial_state.
    + right. by apply knownGroup_initial_state.
    + by left.
    + by left.
  - right. by apply knownGroup_initialized_state.
Qed.

Lemma reachable_materialized : reachable srp_materialized.
Proof.
  rewrite <- (knownGroup_initial_state (JNum 1024)) by done.
  apply reachable_call, reachable_initial.
Qed.

Lemma reachable_initialized (st : srp_state) :
  reachable st -> _didInitKnownGroups st = true -> st = srp_materialized.
Proof. intros [-> | ->]%reachable_inv; [discriminate | done]. Qed.

Lemma lookup_key_reachable (key : string) (st : srp_state) :
  reachable st ->
  lookup_key key st =
  Return (property_get (_knownGroups srp_materialized) key) srp_materialized.
Proof.
  intros [-> | ->]%reachable_inv.
  - apply lookup_key_initial.
  - by apply lookup_key_initialized.
Qed.

(** ** Decimal strings are not inherited property names *)

Lemma pretty_N_go_starts_decimal (x : N) (s : string) :
  (0 < x)%N -> starts_decimal (pretty_N_go x s) = true.
Proof.
  revert s. induction (N.lt_wf_0 x) as [x _ IH]. intros s Hx.
  rewrite pretty_N_go_step by done.
  destruct (decide (x `div` 10 = 0)%N) as [Hz|Hnz].
  - rewrite Hz, pretty_N_go_0. unfold pretty_N_char.
    by repeat case_match.
  - apply IH; [apply N.div_lt; lia | by apply N.neq_0_lt_0].
Qed.

Lemma Number_toString_starts_decimal (n : Z) :
  starts_decimal (Number_toString n) = true.
Proof.
  unfold Number_toString, pretty, pretty_Z. destruct n as [|p|p].
  - reflexivity.
  - unfold pretty, pretty_positive, pretty, pretty_N.
    rewrite decide_False by done. by apply pretty_N_go_starts_decimal.
  - reflexivity.
Qed.

Lemma Number_toString_not_inherited (n : Z) :
  Number_toString n ∉ Object_prototype.
Proof.
  intros Hin. pose proof (Number_toString_starts_decimal n) as Hd.
  assert (Forall (fun s => starts_decimal s = false) Object_prototype) as Hall.
  { unfold Object_prototype. repeat constructor. }
  rewrite Forall_forall in Hall. rewrite (Hall _ Hin) in Hd. discriminate.
Qed.

(** ** The catalog *)

Lemma catalog_literals_hex :
  map_Forall (fun _ o => literal_group o = true) _knownGroups_literal.
Proof. apply (bool_decide_unpack _). vm_compute. exact Logic.I. Qed.

Lemma catalog_materialized_bn :
  map_Forall (fun _ o => bn_group o = true) (_knownGroups srp_materialized).
Proof. apply (bool_decide_unpack _). vm_compute. exact Logic.I. Qed.

Lemma catalog_dom :
  dom (_knownGroups srp_materialized) = list_to_set (Number_toString <$> _knownGroupSizes).
Proof. apply (bool_decide_unpack _). vm_compute. exact Logic.I. Qed.

Lemma size_strings_toString :
  size_strings = (fun n => (n, Number_toString n)) <$> _knownGroupSizes.
Proof. vm_compute. reflexivity. Qed.

Lemma catalog_lookup_is_Some (key : string) :
  is_Some (_knownGroups srp_materialized !! key) <->
  exists n, n ∈ _knownGroupSizes /\ key = Number_toString n.
Proof.
  rewrite <- elem_of_dom, catalog_dom, elem_of_list_to_set, list_elem_of_fmap.
  split; intros (n & ? & ?); exists n; done.
Qed.

Lemma catalog_lookup_unknown (n : Z) :
  n ∉ _knownGroupSizes -> _knownGroups srp_materialized !! Number_toString n = None.
Proof.
  intros Hn. apply eq_None_not_Some. rewrite catalog_lookup_is_Some.
  intros (m & Hm & Heq). apply (inj _) in Heq. by subst.
Qed.

Lemma cataloged_materialized (st : srp_state) (group : jsval) (N g : bn) :
  cataloged st group N g -> st = srp_materialized.
Proof. intros (Hr & Hf & _). by apply reachable_initialized. Qed.

Lemma cataloged_bounds (st : srp_state) (group : jsval) (N g : bn) :
  cataloged st group N g -> 1 < g < N.
Proof.
  intros Hc. pose proof (cataloged_materialized _ _ _ _ Hc) as ->.
  destruct Hc as (_ & _ & key & _ & Hkey).
  pose proof (catalog_materialized_bn key _ Hkey) as Hb. simpl in Hb.
  apply andb_true_iff in Hb as [H1 H2]. lia.
Qed.

Lemma property_get_own (o : gmap string Group.t) (key : string) :
  is_Some (o !! key) -> property_get o key = VGroup key.
Proof. intros [x Hx]. unfold property_get. by rewrite Hx. Qed.

Lemma property_get_unknown (n : Z) :
  n ∉ _knownGroupSizes ->
  property_get (_knownGroups srp_materialized) (Number_toString n) = VUndefined.
Proof.
  intros Hn. unfold property_get. rewrite catalog_lookup_unknown by done.
  rewrite bool_decide_eq_false_2; [done | apply Number_toString_not_inherited].
Qed.

Lemma materialized_lookup (key : string) (o : Group.t) :
  _knownGroups_literal !! key = Some o ->
  exists s n, o = Group.mk (Str s) (Num n) /\
    _knownGroups srp_materialized !! key = Some (Group.mk (Bn (hex_value s)) (Bn n)).
Proof.
  intros Hkey. pose proof (catalog_literals_hex key o Hkey) as Hlit.
  destruct o as [[s| |] [|n|]]; try discriminate.
  exists s, n. split; [done|].
  unfold srp_materialized; simpl. by rewrite lookup_fmap, Hkey.
Qed.

Lemma trace_initialized (calls : list jsarg) (st : srp_state) :
  _didInitKnownGroups st = true -> trace calls st = replicate (length calls) st.
Proof.
  intros Hflag. induction calls as [|j calls IH]; [done|].
  simpl. rewrite knownGroup_initialized_state by done. by rewrite IH.
Qed.

(** C6: the flag [_didInitKnownGroups] is false when the file is loaded;
    the first lookup of a size (a Number or a string) runs
    [_initKnownGroups], which sets the flag and turns the [N] and the [g]
    of every one of the seven entries, whichever was asked for, from the
    hexadecimal string and the small integer of the initialiser into
    BigIntegers; along any sequence of lookups the registry is in that one
    state after the first call and after every later one; and no lookup in
    a state whose flag is set changes the flag or the catalog. *)
Theorem registry_initialized_once (i : jsarg) (rest : list jsarg) :
  is_size i ->
  _didInitKnownGroups srp_initial = false /\
  state_of (knownGroup i srp_initial) = srp_materialized /\
  _didInitKnownGroups srp_materialized = true /\
  (forall n, n ∈ _knownGroupSizes ->
     exists s m,
       _knownGroups srp_initial !! Number_toString n = Some (Group.mk (Str s) (Num m)) /\
       _knownGroups srp_materialized !! Number_toString n =
         Some (Group.mk (Bn (hex_value s)) (Bn m))) /\
  trace (i :: rest) srp_initial = replicate (S (length rest)) srp_materialized /\
  (forall j st, _didInitKnownGroups st = true -> state_of (knownGroup j st) = st).
Proof.
  intros Hi. split; [done|]. split; [by apply knownGroup_initial_state|].
  split; [done|]. split; [|split].
  - intros n Hn.
    assert (is_Some (_knownGroups srp_materialized !! Number_toString n)) as [o Ho].
    { apply catalog_lookup_is_Some. by exists n. }
    unfold srp_materialized in Ho; simpl in Ho. rewrite lookup_fmap in Ho.
    destruct (_knownGroups_literal !! Number_toString n) as [lit|] eqn:Hlit;
      [|discriminate].
    destruct (materialized_lookup _ _ Hlit) as (s & m & -> & Hm).
    exists s, m. split; [exact Hlit | exact Hm].
  - simpl. rewrite knownGroup_initial_state by done.
    by rewrite trace_initialized.
  - intros j st. apply knownGroup_initialized_state.
Qed.

(** C3 as stated fails: [knownGroup(9999)] raises no [UnknownGroup]. *)
Lemma knownGroup_9999_not_UnknownGroup :
  ~ fails_with (knownGroup (JNum 9999) srp_initial) UnknownGroup.
Proof.
  intros [st Hst]. rewrite knownGroup_JNum, lookup_key_initial in Hst. discriminate.
Qed.

(** C3, amended: for every integer bit size that is not one of the seven
    of the catalog, [knownGroup] raises nothing and returns [undefined],
    leaving the registry initialized. *)
Theorem knownGroup_unknown_undefined (n : Z) (st : srp_state) :
  reachable st -> decimal_range n -> n ∉ _knownGroupSizes ->
  knownGroup (JNum n) st = Return VUndefined srp_materialized.
Proof.
  intros Hst _ Hn. rewrite knownGroup_JNum, lookup_key_reachable by done.
  by rewrite property_get_unknown.
Qed.

(** C7: [knownGroup(2048)] returns the group object of the catalog whose
    [N] is a BigInteger of exactly 2048 bits and whose [g] is 2. *)
Theorem knownGroup_2048 (st : srp_state) :
  reachable st ->
  exists N : bn,
    knownGroup (JNum 2048) st = Return (VGroup "2048") srp_materialized /\
    _knownGroups srp_materialized !! "2048"%string = Some (Group.mk (Bn N) (Bn 2)) /\
    2 ^ 2047 <= N < 2 ^ 2048.
Proof.
  intros Hst.
  destruct (_knownGroups_literal !! "2048"%string) as [lit|] eqn:Hlit;
    [|vm_compute in Hlit; discriminate].
  destruct (materialized_lookup _ _ Hlit) as (s & m & -> & Hm).
  vm_compute in Hlit. injection Hlit as <- <-.
  eexists. split; [|split; [exact Hm|]].
  - rewrite knownGroup_JNum, lookup_key_reachable by done.
    rewrite property_get_own; [done | by eexists].
  - split; [apply Z.leb_le | apply Z.ltb_lt]; vm_compute; reflexivity.
Qed.

(** C9: for each size of the catalog, the call with the Number and the
    call with its decimal string have the same outcome (the same group
    object and the same registry afterwards), which from any state the
    registry goes through is the group object stored under that string. *)
Theorem knownGroup_number_or_string (n : Z) (s : string) (st : srp_state) :
  (n, s) ∈ size_strings ->
  knownGroup (JNum n) st = knownGroup (JStr s) st /\
  (reachable st -> knownGroup (JNum n) st = Return (VGroup s) srp_materialized).
Proof.
  rewrite size_strings_toString. intros (m & [= -> ->] & Hm)%list_elem_of_fmap.
  split; [reflexivity|]. intros Hst.
  rewrite knownGroup_JNum, lookup_key_reachable by done.
  rewrite property_get_own; [done|]. apply catalog_lookup_is_Some. by exists m.
Qed.

Lemma catalog_lookup_bn (key : string) :
  is_Some (_knownGroups srp_materialized !! key) ->
  _knownGroups srp_materialized !! key =
  Some (Group.mk (Bn (catalog_N key)) (Bn (catalog_g key))).
Proof.
  intros [o Ho]. pose proof (catalog_materialized_bn key o Ho) as Hb.
  unfold catalog_N, catalog_g. rewrite Ho.
  by destruct o as [[| |N] [| |g]].
Qed.

(** The groups [knownGroup] hands out for the sizes of the catalog are
    cataloged groups. *)
Lemma knownGroup_cataloged (n : Z) (st st' : srp_state) (group : jsval) :
  reachable st -> n ∈ _knownGroupSizes ->
  knownGroup (JNum n) st = Return group st' ->
  cataloged st' group (catalog_N (Number_toString n)) (catalog_g (Number_toString n)).
Proof.
  intros Hst Hn. rewrite knownGroup_JNum, lookup_key_reachable by done.
  assert (is_Some (_knownGroups srp_materialized !! Number_toString n)) as Hsome.
  { apply catalog_lookup_is_Some. by exists n. }
  rewrite property_get_own by done. intros [= <- <-].
  split; [apply reachable_materialized|]. split; [done|].
  exists (Number_toString n). split; [done|]. by apply catalog_lookup_bn.
Qed.

(** ** Padding *)

Lemma words_cover (a : bitArray.t) : (length a <= 32 * bitArray.words a)%nat.
Proof.
  unfold bitArray.words.
  pose proof (Nat.div_mod_eq (length a + 31) 32) as Hdiv.
  pose proof (Nat.mod_upper_bound (length a + 31) 32) as Hmod. lia.
Qed.

Lemma _pad_eq (p N : bitArray.t) :
  bitArray.bitLength p <= bitArray.bitLength N ->
  _pad p N = replicate (length N - length p) false ++ p.
Proof.
  intros Hle.
  unfold _pad, bitArray.concat, bitArray.bitSlice, bitArray.zeros.
  unfold bitArray.bitLength in *. f_equal. rewrite Z.sub_0_r. change (Z.to_nat 0) with 0%nat. rewrite drop_0.
  rewrite take_replicate. f_equal.
  pose proof (words_cover N). lia.
Qed.

(** C4: when [v] has at most as many bits as the modulus, [_pad] returns a
    bit array of exactly the length of the modulus, whose low-order bits
    are [v] and whose prepended bits are all zero; when the lengths are
    equal nothing is prepended and the result is [v]. *)
Theorem pad_spec (v Nb : bitArray.t) :
  bitArray.bitLength v <= bitArray.bitLength Nb ->
  let d := bitArray.bitLength Nb - bitArray.bitLength v in
  bitArray.bitLength (_pad v Nb) = bitArray.bitLength Nb /\
  bitArray.bitSlice (_pad v Nb) d (bitArray.bitLength Nb) = v /\
  bitArray.bitSlice (_pad v Nb) 0 d = replicate (Z.to_nat d) false /\
  (bitArray.bitLength v = bitArray.bitLength Nb -> _pad v Nb = v).
Proof.
  intros Hle d. rewrite _pad_eq by done. subst d.
  unfold bitArray.bitLength in *. unfold bitArray.bitSlice.
  replace (Z.to_nat (Z.of_nat (length Nb) - Z.of_nat (length v)))
    with (length Nb - length v)%nat by lia.
  split; [|split; [|split]].
  - rewrite length_app, length_replicate. lia.
  - rewrite drop_app_length' by (by rewrite length_replicate).
    apply take_ge. lia.
  - rewrite Z.sub_0_r. change (Z.to_nat 0) with 0%nat. rewrite drop_0.
    replace (Z.to_nat (Z.of_nat (length Nb) - Z.of_nat (length v)))
      with (length Nb - length v)%nat by lia.
    rewrite take_app_length' by (by rewrite length_replicate). done.
  - intros Heq. replace (length Nb - length v)%nat with 0%nat by lia. done.
Qed.

(** ** Reading the group *)

Lemma deref_read (group : jsval) (st : srp_state) :
  (exists o, deref group st = Return o st) \/ deref group st = Throw TypeError st.
Proof.
  destruct group as [key|name|]; [|by right..].
  unfold deref. rewrite (bind_Return _ _ st st (_knownGroups st)) by done.
  destruct (_knownGroups st !! key) as [o|]; [left; by exists o | by right].
Qed.

Lemma deref_group_bn (st : srp_state) (group : jsval) (N g : bn) :
  group_bn st group N g -> deref group st = Return (Group.mk (Bn N) (Bn g)) st.
Proof.
  intros (key & -> & Hkey). unfold deref.
  rewrite (bind_Return _ _ st st (_knownGroups st)) by done. by rewrite Hkey.
Qed.

Lemma group_N_bn (st : srp_state) (group : jsval) (N g : bn) :
  group_bn st group N g -> group_N group st = Return N st.
Proof.
  intros Hg. unfold group_N.
  by rewrite (bind_Return _ _ st st _ (deref_group_bn _ _ _ _ Hg)).
Qed.

Lemma group_g_bn (st : srp_state) (group : jsval) (N g : bn) :
  group_bn st group N g -> group_g group st = Return g st.
Proof.
  intros Hg. unfold group_g.
  by rewrite (bind_Return _ _ st st _ (deref_group_bn _ _ _ _ Hg)).
Qed.

Lemma _makeK_bn (st : srp_state) (group : jsval) (N g : bn) :
  group_bn st group N g ->
  _makeK group st =
  Return (sha1 (bn_toBits N ++ _pad (bn_toBits g) (bn_toBits N))) st.
Proof.
  intros Hg. unfold _makeK.
  rewrite (bind_Return _ _ st st N) by (by eapply group_N_bn).
  rewrite (bind_Return _ _ st st g) by (by eapply group_g_bn).
  reflexivity.
Qed.

Lemma _makeU_bn (st : srp_state) (A B : bitArray.t) (group : jsval) (N g : bn) :
  group_bn st group N g ->
  _makeU A B group st =
  Return (sha1 (_pad A (bn_toBits N) ++ _pad B (bn_toBits N))) st.
Proof.
  intros Hg. unfold _makeU.
  rewrite (bind_Return _ _ st st N) by (by eapply group_N_bn).
  reflexivity.
Qed.

(** ** Hashing a string *)

Lemma list_ascii_of_string_app (a b : string) :
  list_ascii_of_string (a +:+ b) = list_ascii_of_string a ++ list_ascii_of_string b.
Proof. induction a as [|c a IH]; simpl; [done | by rewrite IH]. Qed.

Lemma utf8String_toBits_app (a b : string) :
  utf8String.toBits (a +:+ b) = utf8String.toBits a ++ utf8String.toBits b.
Proof.
  unfold utf8String.toBits. by rewrite list_ascii_of_string_app, flat_map_app.
Qed.

Lemma _makeX_eq (I P : string) (s : bitArray.t) :
  _makeX I P s =
  sha1 (s ++ sha1 (utf8String.toBits I ++ utf8String.toBits ":" ++ utf8String.toBits P)).
Proof.
  unfold _makeX, sha1_hash, bitArray.concat.
  by rewrite !utf8String_toBits_app, <- app_assoc.
Qed.

(** ** The verifier *)

(** C2: on a group of the catalog, [makeVerifier] returns the bit string
    of [g^x mod N], where [x] is the BigInteger read from the digest
    [Hash(s || Hash(I || ":" || P))]: [I], [":"] and [P] enter the inner
    hash as the bits of their characters, and [s] enters the outer hash as
    it is. *)
Theorem makeVerifier_spec (I P : string) (s : bitArray.t) (group : jsval)
    (st : srp_state) (N g : bn) :
  cataloged st group N g ->
  let x := bn_fromBits
    (sha1 (s ++ sha1 (utf8String.toBits I ++ utf8String.toBits ":" ++
                      utf8String.toBits P))) in
  makeVerifier I P s group st = Return (bn_toBits (g ^ x mod N)) st.
Proof.
  intros (_ & _ & Hg) x. unfold makeVerifier.
  rewrite (bind_Return _ _ st st g) by (by eapply group_g_bn).
  rewrite (bind_Return _ _ st st N) by (by eapply group_N_bn).
  rewrite _makeX_eq. reflexivity.
Qed.

(** ** The client key *)

Lemma _pad_zero_extend (p N : bitArray.t) :
  _pad p N = replicate (length N - length p) false ++ p.
Proof.
  unfold _pad, bitArray.concat, bitArray.bitSlice, bitArray.zeros.
  unfold bitArray.bitLength. f_equal.
  rewrite Z.sub_0_r. change (Z.to_nat 0) with 0%nat. rewrite drop_0.
  rewrite take_replicate. f_equal.
  pose proof (words_cover N). lia.
Qed.

(** C1: on a group of the catalog, [makeClientKey] returns the bit string
    of [base ^ exponent mod N], where [base = (B - k * (g^x mod N)) mod N]
    lies in [[0, N)], [exponent = a + u * x] is an integer sum and product
    with no reduction, and [x], [k] and [u] are the BigIntegers read from
    the digests [Hash(s || Hash(I || ":" || P))], [Hash(N || pad(g))] and
    [Hash(pad(A) || pad(B))], [pad] being written out: the value preceded
    by as many zero bits as it is short of the bits of [N] (none when it
    is as long or longer). *)
Theorem makeClientKey_spec (I P : string) (s a A B : bitArray.t) (group : jsval)
    (st : srp_state) (N g : bn) :
  cataloged st group N g ->
  let Nb := bn_toBits N in
  let gb := bn_toBits g in
  let x := bn_fromBits
    (sha1 (s ++ sha1 (utf8String.toBits I ++ utf8String.toBits ":" ++
                      utf8String.toBits P))) in
  let k := bn_fromBits
    (sha1 (Nb ++ (replicate (length Nb - length gb) false ++ gb))) in
  let u := bn_fromBits
    (sha1 ((replicate (length Nb - length A) false ++ A) ++
           (replicate (length Nb - length B) false ++ B))) in
  let base := (bn_fromBits B - k * (g ^ x mod N)) mod N in
  let exponent := bn_fromBits a + u * x in
  makeClientKey I P s a A B group st = Return (bn_toBits (base ^ exponent mod N)) st /\
  0 <= base < N.
Proof.
  intros Hc Nb gb x k u base exponent.
  pose proof (cataloged_bounds _ _ _ _ Hc) as HN. destruct Hc as (_ & _ & Hg).
  split; [|apply Z.mod_pos_bound; lia].
  unfold makeClientKey.
  rewrite (bind_Return _ _ st st _ (_makeK_bn _ _ _ _ Hg)).
  rewrite (bind_Return _ _ st st _ (_makeU_bn _ _ _ _ _ _ Hg)).
  rewrite (bind_Return _ _ st st g) by (by eapply group_g_bn).
  do 4 rewrite (bind_Return _ _ st st N) by (by eapply group_N_bn).
  rewrite _makeX_eq, !_pad_zero_extend.
  unfold mret, M_ret, bn_powermod, bn_mulmod, bn_mod, bn_sub, bn_mul, bn_add.
  fold Nb gb. fold x k u. do 3 f_equal.
  subst base exponent. rewrite Zminus_mod_idemp_r.
  by rewrite (Z.mul_comm (g ^ x `mod` N) k).
Qed.

(** ** Determinism and frame *)

Lemma read_only_deref (group : jsval) : read_only (deref group).
Proof. intros st. by destruct (deref_read group st) as [[o ->] | ->]. Qed.

Lemma read_only_as_bn (f : field) : read_only (as_bn f).
Proof. intros st. by destruct f. Qed.

Lemma read_only_group_N (group : jsval) : read_only (group_N group).
Proof. apply read_only_bind; [apply read_only_deref | intros o; apply read_only_as_bn]. Qed.

Lemma read_only_group_g (group : jsval) : read_only (group_g group).
Proof. apply read_only_bind; [apply read_only_deref | intros o; apply read_only_as_bn]. Qed.

Create HintDb read_only.
#[local] Hint Resolve read_only_group_N read_only_group_g : read_only.
#[local] Hint Extern 1 (read_only (mret _)) => apply read_only_ret : read_only.
#[local] Hint Extern 2 (read_only (_ ≫= _)) =>
  apply read_only_bind; [|intros ?] : read_only.

Lemma read_only__makeK (group : jsval) : read_only (_makeK group).
Proof. unfold _makeK. auto 10 with read_only. Qed.

Lemma read_only__makeU (A B : bitArray.t) (group : jsval) : read_only (_makeU A B group).
Proof. unfold _makeU. auto 10 with read_only. Qed.

#[local] Hint Resolve read_only__makeK read_only__makeU : read_only.

Lemma read_only_makeVerifier (I P : string) (s : bitArray.t) (group : jsval) :
  read_only (makeVerifier I P s group).
Proof. unfold makeVerifier. auto 10 with read_only. Qed.

Lemma value_of_bind {A B : Type} (m : M A) (f : A -> M B) (st1 st2 : srp_state) :
  read_only m ->
  value_of (m st1) = value_of (m st2) ->
  (forall a, value_of (f a st1) = value_of (f a st2)) ->
  value_of ((m ≫= f) st1) = value_of ((m ≫= f) st2).
Proof.
  intros Hm Hv Hf. pose proof (Hm st1) as H1. pose proof (Hm st2) as H2.
  unfold mbind, M_bind.
  destruct (m st1) as [a1 st1'|e1 st1'], (m st2) as [a2 st2'|e2 st2'];
    simpl in *; simplify_eq; [apply Hf | done].
Qed.

Lemma group_N_value (group : jsval) (st1 st2 : srp_state) :
  value_of (deref group st1) = value_of (deref group st2) ->
  value_of (group_N group st1) = value_of (group_N group st2).
Proof.
  intros Hd. apply value_of_bind; [apply read_only_deref | done |].
  intros o. by destruct (Group.N o).
Qed.

Lemma group_g_value (group : jsval) (st1 st2 : srp_state) :
  value_of (deref group st1) = value_of (deref group st2) ->
  value_of (group_g group st1) = value_of (group_g group st2).
Proof.
  intros Hd. apply value_of_bind; [apply read_only_deref | done |].
  intros o. by destruct (Group.g o).
Qed.

(** C8: the output of [makeVerifier] is a function of its inputs alone.
    Two calls with the same [I], [P], [s] and [group], made in any two
    states of the registry in which the group object holds the same [N]
    and [g], give the same result (the same bit string, or the same
    error); and a call made right after a call that returned returns the
    same bit string again. *)
Theorem makeVerifier_deterministic (I P : string) (s : bitArray.t) (group : jsval)
    (st1 st2 : srp_state) :
  value_of (deref group st1) = value_of (deref group st2) ->
  value_of (makeVerifier I P s group st1) = value_of (makeVerifier I P s group st2) /\
  (forall v st1', makeVerifier I P s group st1 = Return v st1' ->
     makeVerifier I P s group st1' = Return v st1').
Proof.
  intros Hd. split.
  - unfold makeVerifier.
    apply value_of_bind; [apply read_only_group_g | by apply group_g_value |].
    intros g. apply value_of_bind; [apply read_only_group_N | by apply group_N_value |].
    done.
  - intros v st1' Hv. pose proof (read_only_makeVerifier I P s group st1) as Hro.
    rewrite Hv in Hro. simpl in Hro. by subst st1'.
Qed.

(** C10: none of the five operations writes to the registry: whatever the
    inputs and whether the call returns or raises, the state after the
    call is the state before it, so the group object the caller passed
    holds the same [N] and [g] afterwards.  (The loop of [makeM1] updates
    the digest the hash has just returned, not the group.) *)
Theorem srp_operations_frame (I P : string) (s a A B K M1 : bitArray.t)
    (group : jsval) (st : srp_state) :
  state_of (makeVerifier I P s group st) = st /\
  state_of (makeA a group st) = st /\
  state_of (makeClientKey I P s a A B group st) = st /\
  state_of (makeM1 I s A B K group st) = st /\
  state_of (makeM2 A M1 K st) = st.
Proof.
  split; [|split; [|split; [|split]]].
  - apply read_only_makeVerifier.
  - revert st. change (read_only (makeA a group)).
    unfold makeA. auto 10 with read_only.
  - revert st. change (read_only (makeClientKey I P s a A B group)).
    unfold makeClientKey. auto 20 with read_only.
  - revert st. change (read_only (makeM1 I s A B K group)).
    unfold makeM1. auto 10 with read_only.
  - reflexivity.
Qed.

(** ** The first proof, [M1] *)

Lemma words_whole (a : bitArray.t) (w : nat) :
  length a = (32 * w)%nat -> bitArray.words a = w.
Proof.
  intros Ha. unfold bitArray.words. rewrite Ha.
  symmetry. apply (Nat.div_unique _ 32 w 31); lia.
Qed.

Lemma word_whole (a : bitArray.t) (w j : nat) :
  length a = (32 * w)%nat -> (j < w)%nat ->
  bitArray.word a j = take 32 (drop (32 * j) a).
Proof.
  intros Ha Hj. unfold bitArray.word. apply take_app_le.
  rewrite length_drop. lia.
Qed.

(** The loop, after the words [0 .. j-1]: they hold the XOR, the others
    are as they were. *)
Lemma xor_loop_prefix (hN hg : bitArray.t) (w j : nat) :
  length hN = (32 * w)%nat -> length hg = (32 * w)%nat -> (j <= w)%nat ->
  fold_left
    (fun acc i => bitArray.set_word acc i
                    (bitArray.xor_word (bitArray.word acc i) (bitArray.word hg i)))
    (seq 0 j) hN =
  zip_with xorb (take (32 * j) hN) (take (32 * j) hg) ++ drop (32 * j) hN.
Proof.
  intros HN Hg. induction j as [|j IH]; intros Hj.
  - by rewrite Nat.mul_0_r, !take_0, drop_0.
  - rewrite seq_S, fold_left_app, IH by lia. cbn [fold_left].
    change (0 + j)%nat with j.
    set (Z := zip_with xorb (take (32 * j) hN) (take (32 * j) hg)).
    assert (length Z = (32 * j)%nat) as HZ.
    { unfold Z. rewrite length_zip_with, !length_take. lia. }
    assert (bitArray.word (Z ++ drop (32 * j) hN) j = take 32 (drop (32 * j) hN)) as ->.
    { unfold bitArray.word. rewrite drop_app_length' by done.
      apply take_app_le. rewrite length_drop. lia. }
    rewrite (word_whole hg w j) by (done || lia).
    unfold bitArray.set_word, bitArray.xor_word.
    rewrite take_app_length' by done.
    replace (32 * S j)%nat with (32 * j + 32)%nat by lia.
    rewrite drop_app_add' by done. rewrite drop_drop.
    rewrite <- !take_take_drop, zip_with_app by (rewrite !length_take; lia).
    by rewrite <- app_assoc.
Qed.

Lemma xor_loop_zip (hN hg : bitArray.t) (w : nat) :
  length hN = (32 * w)%nat -> length hg = (32 * w)%nat ->
  xor_loop hN hg = zip_with xorb hN hg.
Proof.
  intros HN Hg. unfold xor_loop. rewrite (words_whole hN w) by done.
  rewrite (xor_loop_prefix hN hg w w) by done.
  rewrite !take_ge, drop_ge by lia. apply app_nil_r.
Qed.

(** C5: on a group of the catalog, with a hash whose digests of [N] and of
    [g] are the same whole number of 32-bit words, [makeM1] returns
    [Hash((Hash(N) XOR Hash(g)) || Hash(I) || s || A || B || K)]: the XOR
    made word by word by the loop is the XOR of the two digests, [g] is
    hashed without padding, and the six fields come in that order. *)
Theorem makeM1_spec (I : string) (s A B K : bitArray.t) (group : jsval)
    (st : srp_state) (N g : bn) (w : nat) :
  cataloged st group N g ->
  length (sha1 (bn_toBits N)) = (32 * w)%nat ->
  length (sha1 (bn_toBits g)) = (32 * w)%nat ->
  makeM1 I s A B K group st =
  Return (sha1 (zip_with xorb (sha1 (bn_toBits N)) (sha1 (bn_toBits g)) ++
                sha1 (utf8String.toBits I) ++ s ++ A ++ B ++ K)) st.
Proof.
  intros (_ & _ & Hg) HlN Hlg. unfold makeM1.
  rewrite (bind_Return _ _ st st N) by (by eapply group_N_bn).
  rewrite (bind_Return _ _ st st g) by (by eapply group_g_bn).
  unfold sha1_hash, bitArray.concat. rewrite (xor_loop_zip _ _ w) by done.
  by rewrite <- !app_assoc.
Qed.

(** * Further properties of the registry *)

Lemma init_one_present (n : Z) (st : srp_state) (o : Group.t) :
  _knownGroups st !! Number_toString n = Some o ->
  init_one n st =
  Return tt (mkState (_didInitKnownGroups st)
               (<[Number_toString n := materialize o]> (_knownGroups st))).
Proof.
  intros Ho. unfold init_one.
  rewrite (bind_Return _ _ st st (_knownGroups st)) by done.
  rewrite property_get_own by (by eexists).
  assert (deref (VGroup (Number_toString n)) st = Return o st) as Hd.
  { unfold deref. rewrite (bind_Return _ _ st st (_knownGroups st)) by done.
    by rewrite Ho. }
  rewrite (bind_Return _ _ st st o Hd).
  set (st1 := mkState (_didInitKnownGroups st)
    (alter (fun o' => Group.mk (bn_new (Group.N o)) (Group.g o'))
       (Number_toString n) (_knownGroups st))).
  rewrite (bind_Return _ _ st st1 tt) by done.
  set (o1 := Group.mk (bn_new (Group.N o)) (Group.g o)).
  assert (deref (VGroup (Number_toString n)) st1 = Return o1 st1) as Hd1.
  { unfold deref. rewrite (bind_Return _ _ st1 st1 (_knownGroups st1)) by done.
    unfold st1; simpl. by rewrite lookup_alter_eq, Ho. }
  rewrite (bind_Return _ _ st1 st1 o1 Hd1).
  unfold assign_g, modify, st1; simpl. f_equal. f_equal.
  rewrite alter_alter_eq. by rewrite (alter_alt_Some _ _ _ _ Ho).
Qed.

Lemma init_one_missing (n : Z) (st : srp_state) :
  _knownGroups st !! Number_toString n = None ->
  init_one n st = Throw TypeError st.
Proof.
  intros Ho. unfold init_one.
  rewrite (bind_Return _ _ st st (_knownGroups st)) by done.
  unfold property_get. rewrite Ho.
  rewrite bool_decide_eq_false_2 by apply Number_toString_not_inherited.
  reflexivity.
Qed.

Lemma init_loop_missing (sizes : list Z) (n : Z) (st : srp_state) :
  n ∈ sizes -> _knownGroups st !! Number_toString n = None ->
  exists st', init_loop sizes st = Throw TypeError st' /\
    _didInitKnownGroups st' = _didInitKnownGroups st.
Proof.
  revert st. induction sizes as [|m sizes IH]; intros st Hn Hmiss.
  - by apply elem_of_nil in Hn.
  - simpl. destruct (_knownGroups st !! Number_toString m) as [o|] eqn:Hm.
    + assert (n ≠ m) as Hne by (intros ->; congruence).
      apply elem_of_cons in Hn as [? | Hn]; [done|].
      rewrite (bind_Return _ _ _ _ _ (init_one_present m st o Hm)).
      destruct (IH (mkState (_didInitKnownGroups st)
                     (<[Number_toString m := materialize o]> (_knownGroups st))))
        as (st' & Hst' & Hflag); [done | |].
      { simpl. rewrite lookup_insert_ne; [done|].
        intros Heq. apply (inj _) in Heq. congruence. }
      exists st'. by split.
    + exists st. split; [|done].
      by rewrite (bind_Throw _ _ _ _ _ (init_one_missing m st Hm)).
Qed.

Lemma init_loop_present (sizes : list Z) (st : srp_state) :
  NoDup sizes ->
  (forall n, n ∈ sizes -> is_Some (_knownGroups st !! Number_toString n)) ->
  exists st', init_loop sizes st = Return tt st' /\
    _didInitKnownGroups st' = _didInitKnownGroups st /\
    (forall n, n ∈ sizes ->
       _knownGroups st' !! Number_toString n =
       materialize <$> _knownGroups st !! Number_toString n) /\
    (forall key, (forall n, n ∈ sizes -> key ≠ Number_toString n) ->
       _knownGroups st' !! key = _knownGroups st !! key).
Proof.
  revert st. induction sizes as [|m sizes IH]; intros st Hnd Hall.
  - exists st. split; [done|]. split; [done|]. split; [|done].
    intros n Hn. by apply elem_of_nil in Hn.
  - apply NoDup_cons in Hnd as [Hm Hnd].
    destruct (Hall m) as [o Ho]; [by left|].
    set (st1 := mkState (_didInitKnownGroups st)
                  (<[Number_toString m := materialize o]> (_knownGroups st))).
    assert (forall key, key ≠ Number_toString m ->
              _knownGroups st1 !! key = _knownGroups st !! key) as Hother.
    { intros key Hkey. unfold st1; simpl. by rewrite lookup_insert_ne. }
    destruct (IH st1 Hnd) as (st' & Hst' & Hflag & Hin & Hout).
    { intros n Hn. rewrite Hother; [apply Hall; by right|].
      intros Heq. apply (inj _) in Heq. congruence. }
    exists st'. simpl.
    rewrite (bind_Return _ _ _ _ _ (init_one_present m st o Ho)). fold st1.
    split; [done|]. split; [done|]. split.
    + intros n [-> | Hn]%elem_of_cons.
      * rewrite Hout.
        { unfold st1; simpl. by rewrite lookup_insert_eq, Ho. }
        intros n Hn Heq. apply (inj _) in Heq. congruence.
      * rewrite Hin by done. rewrite Hother; [done|].
        intros Heq. apply (inj _) in Heq. congruence.
    + intros key Hkey. rewrite Hout.
      * apply Hother, Hkey. by left.
      * intros n Hn. apply Hkey. by right.
Qed.

Lemma _knownGroupSizes_NoDup : NoDup _knownGroupSizes.
Proof. apply (bool_decide_unpack _). vm_compute. exact Logic.I. Qed.

(** X1: [_initKnownGroups] does not need the freshly loaded registry.  In
    any state in which every size of [_knownGroupSizes] has its group
    object, whatever the flag and whatever else [_knownGroups] holds, it
    returns, sets the flag, and each of the seven sizes then shows the
    [new sjcl.bn] of the [N] and of the [g] it showed before. *)
Theorem _initKnownGroups_any_state (st : srp_state) :
  (forall n, n ∈ _knownGroupSizes -> is_Some (_knownGroups st !! Number_toString n)) ->
  exists st', _initKnownGroups st = Return tt st' /\
    _didInitKnownGroups st' = true /\
    (forall n, n ∈ _knownGroupSizes ->
       _knownGroups st' !! Number_toString n =
       materialize <$> _knownGroups st !! Number_toString n).
Proof.
  intros Hall.
  destruct (init_loop_present _ st _knownGroupSizes_NoDup Hall)
    as (st1 & Hst1 & _ & Hin & _).
  exists (mkState true (_knownGroups st1)). unfold _initKnownGroups.
  rewrite (bind_Return _ _ _ _ _ Hst1). done.
Qed.

(** X2: when the flag is not set and the group object of one of the sizes
    is missing from [_knownGroups], every lookup of a size, whichever it
    is, raises [TypeError] from inside [_initKnownGroups], and the flag is
    still not set afterwards (so the next lookup fails in the same way). *)
Theorem knownGroup_missing_entry (i : jsarg) (n : Z) (st : srp_state) :
  is_size i -> _didInitKnownGroups st = false ->
  n ∈ _knownGroupSizes -> _knownGroups st !! Number_toString n = None ->
  exists st', knownGroup i st = Throw TypeError st' /\
    _didInitKnownGroups st' = false.
Proof.
  intros Hi Hflag Hn Hmiss.
  destruct (init_loop_missing _ n st Hn Hmiss) as (st' & Hst' & Hflag').
  exists st'. split; [|congruence].
  assert (forall key, lookup_key key st = Throw TypeError st') as Hkey.
  { intros key. unfold lookup_key.
    rewrite (bind_Return _ _ st st false) by (unfold gets; by rewrite Hflag).
    apply bind_Throw. unfold _initKnownGroups. by apply bind_Throw. }
  destruct i as [s|m| |]; try done.
  - by rewrite knownGroup_JStr.
  - by rewrite knownGroup_JNum.
Qed.

Lemma size_strings_keys :
  size_strings.*2 = Number_toString <$> _knownGroupSizes.
Proof. vm_compute. reflexivity. Qed.

Lemma catalog_lookup_None (key : string) :
  key ∉ size_strings.*2 -> _knownGroups srp_materialized !! key = None.
Proof.
  intros Hkey. apply eq_None_not_Some. rewrite catalog_lookup_is_Some.
  intros (n & Hn & ->). apply Hkey. rewrite size_strings_keys.
  apply list_elem_of_fmap. by exists n.
Qed.

(** X3: what a lookup does in every state the registry goes through.
    [knownGroup(undefined)] and [knownGroup(null)] raise [TypeError]
    before anything is touched.  A string returns the group object stored
    under it exactly when it is one of the seven decimal strings (so
    ["01024"] or ["2048 "] give no group); any other string gives the
    member of [Object.prototype] of that name, or [undefined].  A Number
    returns the group object exactly when it is one of the seven sizes,
    and [undefined] otherwise.  Every call that returns leaves the
    registry initialized. *)
Theorem knownGroup_outcome (i : jsarg) (st : srp_state) :
  reachable st ->
  knownGroup i st =
  match i with
  | JUndefined | JNull => Throw TypeError st
  | JStr s =>
      Return (if bool_decide (s ∈ size_strings.*2) then VGroup s
              else if bool_decide (s ∈ Object_prototype) then VInherited s
              else VUndefined) srp_materialized
  | JNum n =>
      Return (if bool_decide (n ∈ _knownGroupSizes) then VGroup (Number_toString n)
              else VUndefined) srp_materialized
  end.
Proof.
  intros Hst. destruct i as [s|n| |]; [| |done..].
  - rewrite knownGroup_JStr, lookup_key_reachable by done. f_equal.
    case_bool_decide as Hs.
    + apply property_get_own, catalog_lookup_is_Some.
      rewrite size_strings_keys in Hs.
      apply list_elem_of_fmap in Hs as (n & -> & Hn). by exists n.
    + unfold property_get. by rewrite catalog_lookup_None.
  - rewrite knownGroup_JNum, lookup_key_reachable by done. f_equal.
    case_bool_decide as Hn.
    + apply property_get_own, catalog_lookup_is_Some. by exists n.
    + by apply property_get_unknown.
Qed.

Lemma Return_inj {A : Type} (a b : A) (st st' : srp_state) :
  Return a st = Return b st' -> a = b /\ st = st'.
Proof. by intros [= -> ->]. Qed.

Lemma property_get_VGroup (o : gmap string Group.t) (k key : string) :
  property_get o k = VGroup key -> is_Some (o !! key).
Proof.
  unfold property_get. destruct (o !! k) eqn:Hk.
  - intros [= <-]. by eexists.
  - by case_bool_decide.
Qed.

(** X4: a group object that [knownGroup] returns, for any argument and in
    any state the registry goes through, is materialized: the registry the
    call leaves is initialized and holds under the returned reference two
    BigIntegers [N] and [g] with [1 < g < N].  No lookup hands out an
    object that still holds the literals. *)
Theorem knownGroup_returns_materialized (i : jsarg) (st st' : srp_state)
    (key : string) :
  reachable st ->
  knownGroup i st = Return (VGroup key) st' ->
  cataloged st' (VGroup key) (catalog_N key) (catalog_g key) /\
  1 < catalog_g key < catalog_N key.
Proof.
  intros Hst Hcall.
  assert (st' = srp_materialized /\
          is_Some (_knownGroups srp_materialized !! key)) as [-> Hsome].
  { destruct i as [s|n| |]; [| |discriminate..].
    - rewrite knownGroup_JStr, lookup_key_reachable in Hcall by done.
      apply Return_inj in Hcall as [Hv <-].
      split; [done | by eapply property_get_VGroup].
    - rewrite knownGroup_JNum, lookup_key_reachable in Hcall by done.
      apply Return_inj in Hcall as [Hv <-].
      split; [done | by eapply property_get_VGroup]. }
  assert (cataloged srp_materialized (VGroup key) (catalog_N key) (catalog_g key))
    as Hc.
  { split; [apply reachable_materialized|]. split; [done|].
    exists key. split; [done|]. by apply catalog_lookup_bn. }
  split; [exact Hc | by eapply cataloged_bounds].
Qed.

(** X5: along any sequence of lookups from the loaded file, the registry
    is untouched after each of the leading calls on [undefined] or [null]
    (they raise), and is in the initialized state after the first call on
    a string or a Number and after every call that follows, whatever its
    argument: the flag never goes back. *)
Theorem trace_two_phases (calls : list jsarg) :
  trace calls srp_initial =
  replicate (leading_failures calls) srp_initial ++
  replicate (length calls - leading_failures calls) srp_materialized.
Proof.
  induction calls as [|i calls IH]; [done|].
  destruct i as [s|n| |]; simpl.
  - rewrite (knownGroup_initial_state (JStr s)) by done.
    by rewrite trace_initialized.
  - rewrite (knownGroup_initial_state (JNum n)) by done.
    by rewrite trace_initialized.
  - by rewrite IH.
  - by rewrite IH.
Qed.

Lemma catalog_entries : Forall (fun ns => catalog_entry ns = true) size_strings.
Proof. apply (bool_decide_unpack _). vm_compute. exact Logic.I. Qed.

(** X6: for each of the seven entries of the catalog, the key is the bit
    length of the modulus ([2^(n-1) <= N < 2^n]), the modulus is odd, and
    the generator satisfies [1 < g < N] and has no factor in common with
    the modulus. *)
Theorem catalog_wellformed (n : Z) (s : string) :
  (n, s) ∈ size_strings ->
  2 ^ (n - 1) <= catalog_N s < 2 ^ n /\
  Z.odd (catalog_N s) = true /\
  1 < catalog_g s < catalog_N s /\
  Z.gcd (catalog_g s) (catalog_N s) = 1.
Proof.
  intros Hin. pose proof catalog_entries as Hall.
  rewrite Forall_forall in Hall. specialize (Hall _ Hin).
  unfold catalog_entry in Hall; simpl in Hall.
  repeat (apply andb_true_iff in Hall as [Hall ?]).
  repeat split; try (by apply Z.leb_le); try (by apply Z.ltb_lt);
    try (by apply Z.eqb_eq); done.
Qed.

(** * Further properties of the protocol functions *)

Lemma catalog_materialized_coprime :
  map_Forall (fun _ o => coprime_group o = true) (_knownGroups srp_materialized).
Proof. apply (bool_decide_unpack _). vm_compute. exact Logic.I. Qed.

Lemma cataloged_coprime (st : srp_state) (group : jsval) (N g : bn) :
  cataloged st group N g -> Z.gcd g N = 1.
Proof.
  intros Hc. pose proof (cataloged_materialized _ _ _ _ Hc) as ->.
  destruct Hc as (_ & _ & key & _ & Hkey).
  pose proof (catalog_materialized_coprime key _ Hkey) as Hb. simpl in Hb.
  by apply Z.eqb_eq.
Qed.

Lemma pow_mod_positive (g e N : Z) :
  1 < N -> Z.gcd g N = 1 -> 0 <= e -> 0 < g ^ e mod N < N.
Proof.
  intros HN Hgcd He.
  pose proof (Z.mod_pos_bound (g ^ e) N ltac:(lia)) as Hb.
  assert (g ^ e mod N <> 0); [|lia].
  intros Hz. apply Z.mod_divide in Hz; [|lia].
  assert (N | 1) as Hone; [|apply Z.divide_1_r_nonneg in Hone; lia].
  revert Hz. pattern e. apply natlike_ind; [by rewrite Z.pow_0_r | | done].
  intros e' He' IH Hdiv. apply IH.
  rewrite Z.pow_succ_r in Hdiv by done.
  apply (Z.gauss N g); [done | by rewrite Z.gcd_comm].
Qed.

Lemma makeVerifier_makeA (I P : string) (s : bitArray.t) (group : jsval) :
  makeVerifier I P s group = makeA (_makeX I P s) group.
Proof. reflexivity. Qed.

Lemma makeA_eval (a : bitArray.t) (group : jsval) (st : srp_state) (N g : bn) :
  group_bn st group N g ->
  makeA a group st = Return (bn_toBits (g ^ bn_fromBits a mod N)) st.
Proof.
  intros Hg. unfold makeA.
  rewrite (bind_Return _ _ st st g) by (by eapply group_g_bn).
  rewrite (bind_Return _ _ st st N) by (by eapply group_N_bn).
  reflexivity.
Qed.

(** X7: on a group of the catalog and for a private value [a] that
    [fromBits] reads as a non-negative integer, [makeA] returns the bit
    string of [A = g^a mod N], and [0 < A < N]: the client never produces
    a public value that is 0 modulo [N]. *)
Theorem makeA_public_value (a : bitArray.t) (group : jsval) (st : srp_state)
    (N g : bn) :
  cataloged st group N g -> 0 <= bn_fromBits a ->
  makeA a group st = Return (bn_toBits (g ^ bn_fromBits a mod N)) st /\
  0 < g ^ bn_fromBits a mod N < N.
Proof.
  intros Hc Ha. split.
  - destruct Hc as (_ & _ & Hg). by apply makeA_eval.
  - apply pow_mod_positive; [|by eapply cataloged_coprime|done].
    pose proof (cataloged_bounds _ _ _ _ Hc). lia.
Qed.

(** X8: [makeVerifier] is [makeA] applied to the digest [x] of the
    credentials; on a group of the catalog, when [fromBits] reads that
    digest as a non-negative integer, the verifier it returns is the bit
    string of an integer [v] with [0 < v < N]. *)
Theorem makeVerifier_range (I P : string) (s : bitArray.t) (group : jsval)
    (st : srp_state) (N g : bn) :
  cataloged st group N g -> 0 <= bn_fromBits (_makeX I P s) ->
  makeVerifier I P s group st = makeA (_makeX I P s) group st /\
  exists v, makeVerifier I P s group st = Return (bn_toBits v) st /\ 0 < v < N.
Proof.
  intros Hc Hx. split; [by rewrite makeVerifier_makeA|].
  exists (g ^ bn_fromBits (_makeX I P s) mod N). rewrite makeVerifier_makeA. split.
  - destruct Hc as (_ & _ & Hg). by apply makeA_eval.
  - apply pow_mod_positive; [|by eapply cataloged_coprime|done].
    pose proof (cataloged_bounds _ _ _ _ Hc). lia.
Qed.

Lemma group_N_not_materialized (st : srp_state) (group : jsval) :
  not_materialized st group -> group_N group st = Throw TypeError st.
Proof.
  destruct group as [key|name|]; [|done..]. intros (s & n & Hkey).
  unfold group_N, deref.
  rewrite (bind_Return _ _ st st (Group.mk (Str s) (Num n))); [done|].
  rewrite (bind_Return _ _ st st (_knownGroups st)) by done. by rewrite Hkey.
Qed.

Lemma group_g_not_materialized (st : srp_state) (group : jsval) :
  not_materialized st group -> group_g group st = Throw TypeError st.
Proof.
  destruct group as [key|name|]; [|done..]. intros (s & n & Hkey).
  unfold group_g, deref.
  rewrite (bind_Return _ _ st st (Group.mk (Str s) (Num n))); [done|].
  rewrite (bind_Return _ _ st st (_knownGroups st)) by done. by rewrite Hkey.
Qed.

(** X9: when [group] is [undefined], a member inherited from
    [Object.prototype], or a group object that still holds the literals of
    the initialiser (the registry has not been initialized), each of
    [makeVerifier], [makeA], [makeClientKey] and [makeM1] raises
    [TypeError] and leaves the registry as it was. *)
Theorem not_materialized_TypeError (I P : string) (s a A B K : bitArray.t)
    (group : jsval) (st : srp_state) :
  not_materialized st group ->
  makeVerifier I P s group st = Throw TypeError st /\
  makeA a group st = Throw TypeError st /\
  makeClientKey I P s a A B group st = Throw TypeError st /\
  makeM1 I s A B K group st = Throw TypeError st.
Proof.
  intros Hg.
  pose proof (group_N_not_materialized _ _ Hg) as HN.
  pose proof (group_g_not_materialized _ _ Hg) as Hgg.
  split; [|split; [|split]].
  - unfold makeVerifier. by apply bind_Throw.
  - unfold makeA. by apply bind_Throw.
  - unfold makeClientKey. apply bind_Throw. unfold _makeK. by apply bind_Throw.
  - unfold makeM1. by apply bind_Throw.
Qed.

(** X10: a lookup of an integer size that is not in the catalog does not
    fail, but what it returns fails at its first use: [knownGroup]
    followed by [makeVerifier], [makeA], [makeClientKey] or [makeM1] on
    its result raises [TypeError], the registry being left initialized. *)
Theorem unknown_size_unusable (n : Z) (I P : string) (s a A B K : bitArray.t)
    (st : srp_state) :
  reachable st -> decimal_range n -> n ∉ _knownGroupSizes ->
  (knownGroup (JNum n) ≫= makeVerifier I P s) st = Throw TypeError srp_materialized /\
  (knownGroup (JNum n) ≫= makeA a) st = Throw TypeError srp_materialized /\
  (knownGroup (JNum n) ≫= makeClientKey I P s a A B) st =
    Throw TypeError srp_materialized /\
  (knownGroup (JNum n) ≫= makeM1 I s A B K) st = Throw TypeError srp_materialized.
Proof.
  intros Hst _ Hn.
  assert (knownGroup (JNum n) st = Return VUndefined srp_materialized) as Hcall.
  { rewrite knownGroup_JNum, lookup_key_reachable by done.
    by rewrite property_get_unknown. }
  rewrite !(bind_Return _ _ _ _ _ Hcall).
  pose proof (group_N_not_materialized srp_materialized VUndefined Logic.I) as HN.
  pose proof (group_g_not_materialized srp_materialized VUndefined Logic.I) as Hg.
  split; [|split; [|split]].
  - unfold makeVerifier. by apply bind_Throw.
  - unfold makeA. by apply bind_Throw.
  - unfold makeClientKey. apply bind_Throw. unfold _makeK. by apply bind_Throw.
  - unfold makeM1. by apply bind_Throw.
Qed.

Lemma makeClientKey_eval (I P : string) (s a A B : bitArray.t) (group : jsval)
    (st : srp_state) (N g : bn) :
  group_bn st group N g ->
  let Nb := bn_toBits N in
  let x := bn_fromBits (_makeX I P s) in
  let k := bn_fromBits (sha1 (Nb ++ _pad (bn_toBits g) Nb)) in
  let u := bn_fromBits (sha1 (_pad A Nb ++ _pad B Nb)) in
  makeClientKey I P s a A B group st =
  Return (bn_toBits
    (((bn_fromBits B - (g ^ x mod N * k) mod N) mod N) ^ (bn_fromBits a + u * x)
       mod N)) st.
Proof.
  intros Hg Nb x k u. unfold makeClientKey.
  rewrite (bind_Return _ _ st st _ (_makeK_bn _ _ _ _ Hg)).
  rewrite (bind_Return _ _ st st _ (_makeU_bn _ _ _ _ _ _ Hg)).
  rewrite (bind_Return _ _ st st g) by (by eapply group_g_bn).
  do 4 rewrite (bind_Return _ _ st st N) by (by eapply group_N_bn).
  reflexivity.
Qed.

(** X11: [makeClientKey] does not inspect the server's public value.  On
    a group of the catalog, when [B] is congruent to [k * g^x] modulo [N]
    and the exponent [a + u * x] is positive, it raises nothing and
    returns the bit string of 0. *)
Theorem makeClientKey_zero_base (I P : string) (s a A B : bitArray.t)
    (group : jsval) (st : srp_state) (N g : bn) :
  cataloged st group N g ->
  let Nb := bn_toBits N in
  let x := bn_fromBits (_makeX I P s) in
  let k := bn_fromBits (sha1 (Nb ++ _pad (bn_toBits g) Nb)) in
  let u := bn_fromBits (sha1 (_pad A Nb ++ _pad B Nb)) in
  (bn_fromBits B - k * (g ^ x mod N)) mod N = 0 ->
  0 < bn_fromBits a + u * x ->
  makeClientKey I P s a A B group st = Return (bn_toBits 0) st.
Proof.
  intros Hc Nb x k u Hbase Hexp.
  pose proof (cataloged_bounds _ _ _ _ Hc) as HN. destruct Hc as (_ & _ & Hg).
  rewrite (makeClientKey_eval I P s a A B group st N g Hg). fold Nb x k u.
  rewrite Zminus_mod_idemp_r, (Z.mul_comm (g ^ x `mod` N) k), Hbase.
  rewrite Z.pow_0_l by done. by rewrite Z.mod_0_l by lia.
Qed.

Lemma string_app_assoc (a b c : string) : (a +:+ b) +:+ c = a +:+ (b +:+ c).
Proof.
  induction a as [|ch a IH]; [done|].
  change (String ch ((a +:+ b) +:+ c) = String ch (a +:+ (b +:+ c))).
  by f_equal.
Qed.

(** X12: the credentials enter [x] only through the string
    [I + ":" + P], so a colon can move between the identity and the
    password: [I:J] with password [P] and [I] with password [J:P] have
    the same [x], and the same outcome of [makeVerifier] on every group
    and in every state. *)
Theorem _makeX_colon (I J P : string) (s : bitArray.t) (group : jsval)
    (st : srp_state) :
  _makeX ((I +:+ ":") +:+ J) P s = _makeX I ((J +:+ ":") +:+ P) s /\
  makeVerifier ((I +:+ ":") +:+ J) P s group st =
  makeVerifier I ((J +:+ ":") +:+ P) s group st.
Proof.
  assert (_makeX ((I +:+ ":") +:+ J) P s = _makeX I ((J +:+ ":") +:+ P) s) as Hx.
  { unfold _makeX. by rewrite !string_app_assoc. }
  split; [exact Hx|]. unfold makeVerifier. by rewrite Hx.
Qed.

Lemma _pad_leading_zeros (j : nat) (v N : bitArray.t) :
  (j + length v <= length N)%nat ->
  _pad (replicate j false ++ v) N = _pad v N.
Proof.
  intros Hle.
  rewrite !_pad_eq by (unfold bitArray.bitLength;
                       rewrite ?length_app, ?length_replicate; lia).
  rewrite length_app, length_replicate, app_assoc, <- replicate_add.
  do 2 f_equal. lia.
Qed.

(** X13: on a group whose object holds two BigIntegers, when [A] and [B]
    have at most as many bits as [N], the input that [_makeU] hashes is
    [A] and [B] each extended with zero bits on the left to the length of
    [N], and has exactly twice the bits of [N]. *)
Theorem _makeU_fixed_width (A B : bitArray.t) (group : jsval) (st : srp_state)
    (N g : bn) :
  group_bn st group N g ->
  bitArray.bitLength A <= bitArray.bitLength (bn_toBits N) ->
  bitArray.bitLength B <= bitArray.bitLength (bn_toBits N) ->
  let Nb := bn_toBits N in
  let input := replicate (length Nb - length A) false ++ A ++
               replicate (length Nb - length B) false ++ B in
  _makeU A B group st = Return (sha1 input) st /\
  bitArray.bitLength input = 2 * bitArray.bitLength Nb.
Proof.
  intros Hg HA HB Nb input. split.
  - rewrite (_makeU_bn _ _ _ _ _ _ Hg). fold Nb.
    rewrite !_pad_eq by done. unfold input. by rewrite <- app_assoc.
  - unfold input, bitArray.bitLength in *. fold Nb in HA, HB.
    rewrite !length_app, !length_replicate. lia.
Qed.

(** X14: [u] does not depend on how [A] and [B] are written: zero bits in
    front of [A] or of [B], while they still fit the length of [N], do
    not change what [_makeU] returns. *)
Theorem _makeU_leading_zeros (i j : nat) (A B : bitArray.t) (group : jsval)
    (st : srp_state) (N g : bn) :
  group_bn st group N g ->
  (i + length A <= length (bn_toBits N))%nat ->
  (j + length B <= length (bn_toBits N))%nat ->
  _makeU (replicate i false ++ A) (replicate j false ++ B) group st =
  _makeU A B group st.
Proof.
  intros Hg HA HB. rewrite !(_makeU_bn _ _ _ _ _ _ Hg).
  by rewrite !_pad_leading_zeros.
Qed.

(** X15: on a group whose object holds two BigIntegers, when the bits of
    [g] are at most as many as those of [N], the input that [_makeK]
    hashes is the bits of [N] followed by the bits of [g] extended with
    zero bits on the left to the length of [N]: twice the bits of [N]. *)
Theorem _makeK_fixed_width (group : jsval) (st : srp_state) (N g : bn) :
  group_bn st group N g ->
  bitArray.bitLength (bn_toBits g) <= bitArray.bitLength (bn_toBits N) ->
  let Nb := bn_toBits N in
  let gb := bn_toBits g in
  let input := Nb ++ replicate (length Nb - length gb) false ++ gb in
  _makeK group st = Return (sha1 input) st /\
  bitArray.bitLength input = 2 * bitArray.bitLength Nb.
Proof.
  intros Hg Hle Nb gb input. split.
  - rewrite (_makeK_bn _ _ _ _ Hg). fold Nb gb. by rewrite _pad_eq.
  - unfold input, bitArray.bitLength in *. fold Nb gb in Hle.
    rewrite !length_app, !length_replicate. lia.
Qed.

(** X16: the lazy initialization is enough for a first use.  For each
    size of the catalog and from every state the registry goes through,
    the freshly loaded one included, [knownGroup] on the Number followed
    by [makeVerifier], and [knownGroup] on the decimal string followed by
    [makeA], return the bit strings of [g^x mod N] and [g^a mod N] for the
    [N] and [g] of that size, and leave the registry initialized. *)
Theorem knownGroup_then_operation (n : Z) (key : string) (I P : string)
    (s a : bitArray.t) (st : srp_state) :
  (n, key) ∈ size_strings -> reachable st ->
  (knownGroup (JNum n) ≫= makeVerifier I P s) st =
    Return (bn_toBits (catalog_g key ^ bn_fromBits (_makeX I P s) mod catalog_N key))
      srp_materialized /\
  (knownGroup (JStr key) ≫= makeA a) st =
    Return (bn_toBits (catalog_g key ^ bn_fromBits a mod catalog_N key))
      srp_materialized.
Proof.
  rewrite size_strings_toString. intros (m & [= -> ->] & Hm)%list_elem_of_fmap Hst.
  assert (is_Some (_knownGroups srp_materialized !! Number_toString m)) as Hsome.
  { apply catalog_lookup_is_Some. by exists m. }
  assert (lookup_key (Number_toString m) st =
          Return (VGroup (Number_toString m)) srp_materialized) as Hcall.
  { rewrite lookup_key_reachable by done. by rewrite property_get_own. }
  assert (group_bn srp_materialized (VGroup (Number_toString m))
            (catalog_N (Number_toString m)) (catalog_g (Number_toString m))) as Hg.
  { exists (Number_toString m). split; [done|]. by apply catalog_lookup_bn. }
  rewrite knownGroup_JNum, knownGroup_JStr, !(bind_Return _ _ _ _ _ Hcall).
  rewrite makeVerifier_makeA. split; by apply makeA_eval.
Qed.

End SRP.

(** * Executable checks *)

Example knownGroup_undefined_raises :
  knownGroup JUndefined srp_initial = Throw TypeError srp_initial.
Proof. reflexivity. Qed.

Example knownGroup_constructor :
  knownGroup (JStr "constructor") srp_initial =
  Return (VInherited "constructor") srp_materialized.
Proof. vm_compute. reflexivity. Qed.

Example catalog_generators :
  catalog_g <$> ["1024"; "1536"; "2048"; "3072"; "4096"; "6144"; "8192"]%string =
  [2; 2; 2; 5; 5; 5; 19].
Proof. vm_compute. reflexivity. Qed.

Example pad_generator :
  _pad (Sample.toBits 2) (Sample.toBits 0xEB06E3) = replicate 16 false ++ Sample.toBits 2.
Proof. vm_compute. reflexivity. Qed.

Example pad_longer_value :
  _pad (Sample.toBits 0xEB06E3) (Sample.toBits 2) = Sample.toBits 0xEB06E3.
Proof. vm_compute. reflexivity. Qed.

Example xor_loop_two_words :
  xor_loop (Sample.toBits 0xF0F0F0F08000FFFF) (Sample.toBits 0xFF00FF00FFFFFFFF) =
  Sample.toBits 0x0FF00FF07FFF0000.
Proof. vm_compute. reflexivity. Qed.

Example makeA_3072 :
  makeA Sample.fromBits Sample.toBits (Sample.toBits 5) (VGroup "3072") srp_materialized =
  Return (Sample.toBits 3125) srp_materialized.
Proof. vm_compute. reflexivity. Qed.

Example makeA_before_initialization :
  makeA Sample.fromBits Sample.toBits (Sample.toBits 5) (VGroup "3072") srp_initial =
  Throw TypeError srp_initial.
Proof. vm_compute. reflexivity. Qed.

(** * The theorems at concrete inputs

    The 1024-bit group of the catalog, [I = "alice"],
    [P = "password123"], the sample collaborators. *)

Lemma cataloged_1024 :
  cataloged srp_materialized (VGroup "1024") (catalog_N "1024") (catalog_g "1024").
Proof.
  split; [apply reachable_materialized|]. split; [reflexivity|].
  exists "1024"%string. split; [reflexivity|]. vm_compute. reflexivity.
Qed.

Lemma makeClientKey_spec_witness :
  cataloged srp_materialized (VGroup "1024") (catalog_N "1024") (catalog_g "1024") /\
  (let N := catalog_N "1024" in
   let g := catalog_g "1024" in
   let Nb := Sample.toBits N in
   let x := Sample.fromBits
     (Sample.digest (Sample.salt ++
        Sample.digest (utf8String.toBits "alice" ++ utf8String.toBits ":" ++
                       utf8String.toBits "password123"))) in
   let gb := Sample.toBits g in
   let k := Sample.fromBits
     (Sample.digest (Nb ++ (replicate (length Nb - length gb) false ++ gb))) in
   let u := Sample.fromBits
     (Sample.digest ((replicate (length Nb - length Sample.A) false ++ Sample.A) ++
                     (replicate (length Nb - length Sample.B) false ++ Sample.B))) in
   let base := (Sample.fromBits Sample.B - k * (g ^ x mod N)) mod N in
   let exponent := Sample.fromBits Sample.a + u * x in
   makeClientKey Sample.digest Sample.fromBits Sample.toBits
     "alice" "password123" Sample.salt Sample.a Sample.A Sample.B
     (VGroup "1024") srp_materialized =
   Return (Sample.toBits (base ^ exponent mod N)) srp_materialized /\
   0 <= base < N).
Proof.
  split; [exact cataloged_1024|].
  exact (makeClientKey_spec Sample.digest Sample.fromBits Sample.toBits
           "alice" "password123" Sample.salt Sample.a Sample.A Sample.B
           (VGroup "1024") srp_materialized _ _ cataloged_1024).
Defined.

Lemma makeVerifier_spec_witness :
  cataloged srp_materialized (VGroup "1024") (catalog_N "1024") (catalog_g "1024") /\
  makeVerifier Sample.digest Sample.fromBits Sample.toBits
    "alice" "password123" Sample.salt (VGroup "1024") srp_materialized =
  Return (Sample.toBits
    (catalog_g "1024" ^
       Sample.fromBits
         (Sample.digest (Sample.salt ++
            Sample.digest (utf8String.toBits "alice" ++ utf8String.toBits ":" ++
                           utf8String.toBits "password123")))
     mod catalog_N "1024")) srp_materialized.
Proof.
  split; [exact cataloged_1024|].
  exact (makeVerifier_spec Sample.digest Sample.fromBits Sample.toBits
           "alice" "password123" Sample.salt (VGroup "1024") srp_materialized
           _ _ cataloged_1024).
Defined.

Lemma knownGroup_unknown_undefined_witness :
  reachable srp_initial /\ decimal_range 9999 /\ (9999 ∉ _knownGroupSizes) /\
  knownGroup (JNum 9999) srp_initial = Return VUndefined srp_materialized.
Proof.
  assert (decimal_range 9999) as Hrange by (unfold decimal_range; lia).
  assert (9999 ∉ _knownGroupSizes) as Hnot.
  { unfold _knownGroupSizes. rewrite !not_elem_of_cons. repeat split; try lia.
    apply not_elem_of_nil. }
  split; [exact reachable_initial|]. split; [exact Hrange|]. split; [exact Hnot|].
  exact (knownGroup_unknown_undefined 9999 srp_initial reachable_initial Hrange Hnot).
Defined.

Lemma pad_spec_witness :
  bitArray.bitLength (Sample.toBits 2) <= bitArray.bitLength (Sample.toBits 0xEB06E3) /\
  (let v := Sample.toBits 2 in
   let Nb := Sample.toBits 0xEB06E3 in
   let d := bitArray.bitLength Nb - bitArray.bitLength v in
   bitArray.bitLength (_pad v Nb) = bitArray.bitLength Nb /\
   bitArray.bitSlice (_pad v Nb) d (bitArray.bitLength Nb) = v /\
   bitArray.bitSlice (_pad v Nb) 0 d = replicate (Z.to_nat d) false /\
   (bitArray.bitLength v = bitArray.bitLength Nb -> _pad v Nb = v)).
Proof.
  assert (bitArray.bitLength (Sample.toBits 2) <=
          bitArray.bitLength (Sample.toBits 0xEB06E3)) as Hle
    by (vm_compute; discriminate).
  split; [exact Hle|].
  exact (pad_spec (Sample.toBits 2) (Sample.toBits 0xEB06E3) Hle).
Defined.

Lemma makeM1_spec_witness :
  cataloged srp_materialized (VGroup "1024") (catalog_N "1024") (catalog_g "1024") /\
  length (Sample.digest (Sample.toBits (catalog_N "1024"))) = (32 * 5)%nat /\
  length (Sample.digest (Sample.toBits (catalog_g "1024"))) = (32 * 5)%nat /\
  makeM1 Sample.digest Sample.toBits
    "alice" Sample.salt Sample.A Sample.B Sample.K (VGroup "1024") srp_materialized =
  Return (Sample.digest
    (zip_with xorb (Sample.digest (Sample.toBits (catalog_N "1024")))
                   (Sample.digest (Sample.toBits (catalog_g "1024"))) ++
     Sample.digest (utf8String.toBits "alice") ++
     Sample.salt ++ Sample.A ++ Sample.B ++ Sample.K)) srp_materialized.
Proof.
  assert (length (Sample.digest (Sample.toBits (catalog_N "1024"))) = (32 * 5)%nat)
    as HlN by (vm_compute; reflexivity).
  assert (length (Sample.digest (Sample.toBits (catalog_g "1024"))) = (32 * 5)%nat)
    as Hlg by (vm_compute; reflexivity).
  split; [exact cataloged_1024|]. split; [exact HlN|]. split; [exact Hlg|].
  exact (makeM1_spec Sample.digest Sample.toBits
           "alice" Sample.salt Sample.A Sample.B Sample.K (VGroup "1024")
           srp_materialized _ _ 5%nat cataloged_1024 HlN Hlg).
Defined.

Lemma registry_initialized_once_witness :
  is_size (JNum 2048) /\
  (_didInitKnownGroups srp_initial = false /\
   state_of (knownGroup (JNum 2048) srp_initial) = srp_materialized /\
   _didInitKnownGroups srp_materialized = true /\
   (forall n, n ∈ _knownGroupSizes ->
      exists s m,
        _knownGroups srp_initial !! Number_toString n = Some (Group.mk (Str s) (Num m)) /\
        _knownGroups srp_materialized !! Number_toString n =
          Some (Group.mk (Bn (hex_value s)) (Bn m))) /\
   trace [JNum 2048; JStr "1024"; JNum 9999; JUndefined] srp_initial =
     replicate 4 srp_materialized /\
   (forall j st, _didInitKnownGroups st = true -> state_of (knownGroup j st) = st)).
Proof.
  split; [exact Logic.I|].
  exact (registry_initialized_once (JNum 2048)
           [JStr "1024"; JNum 9999; JUndefined] Logic.I).
Defined.

Lemma knownGroup_2048_witness :
  reachable srp_initial /\
  exists N : bn,
    knownGroup (JNum 2048) srp_initial = Return (VGroup "2048") srp_materialized /\
    _knownGroups srp_materialized !! "2048"%string = Some (Group.mk (Bn N) (Bn 2)) /\
    2 ^ 2047 <= N < 2 ^ 2048.
Proof.
  split; [exact reachable_initial|].
  exact (knownGroup_2048 srp_initial reachable_initial).
Defined.

Lemma makeVerifier_deterministic_witness :
  value_of (deref (VGroup "1024") srp_materialized) =
  value_of (deref (VGroup "1024") srp_altered) /\
  (value_of (makeVerifier Sample.digest Sample.fromBits Sample.toBits
               "alice" "password123" Sample.salt (VGroup "1024") srp_materialized) =
   value_of (makeVerifier Sample.digest Sample.fromBits Sample.toBits
               "alice" "password123" Sample.salt (VGroup "1024") srp_altered) /\
   (forall v st1',
      makeVerifier Sample.digest Sample.fromBits Sample.toBits
        "alice" "password123" Sample.salt (VGroup "1024") srp_materialized =
        Return v st1' ->
      makeVerifier Sample.digest Sample.fromBits Sample.toBits
        "alice" "password123" Sample.salt (VGroup "1024") st1' = Return v st1')).
Proof.
  assert (value_of (deref (VGroup "1024") srp_materialized) =
          value_of (deref (VGroup "1024") srp_altered))
    as Hsame by (vm_compute; reflexivity).
  split; [exact Hsame|].
  exact (makeVerifier_deterministic Sample.digest Sample.fromBits Sample.toBits
           "alice" "password123" Sample.salt (VGroup "1024")
           srp_materialized srp_altered Hsame).
Defined.

Lemma knownGroup_number_or_string_witness :
  ((1024, "1024"%string) ∈ size_strings) /\
  (knownGroup (JNum 1024) srp_initial = knownGroup (JStr "1024") srp_initial /\
   (reachable srp_initial ->
    knownGroup (JNum 1024) srp_initial = Return (VGroup "1024") srp_materialized)).
Proof.
  assert ((1024, "1024"%string) ∈ size_strings) as Hin by apply list_elem_of_here.
  split; [exact Hin|].
  exact (knownGroup_number_or_string 1024 "1024" srp_initial Hin).
Defined.

(** * The further properties at concrete inputs *)

Lemma _initKnownGroups_any_state_witness :
  (forall n, n ∈ _knownGroupSizes ->
     is_Some (_knownGroups srp_extended !! Number_toString n)) /\
  exists st', _initKnownGroups srp_extended = Return tt st' /\
    _didInitKnownGroups st' = true /\
    (forall n, n ∈ _knownGroupSizes ->
       _knownGroups st' !! Number_toString n =
       materialize <$> _knownGroups srp_extended !! Number_toString n).
Proof.
  assert (forall n, n ∈ _knownGroupSizes ->
            is_Some (_knownGroups srp_extended !! Number_toString n)) as Hall.
  { intros n Hn. unfold _knownGroupSizes in Hn.
    repeat (apply elem_of_cons in Hn as [-> | Hn]); try (vm_compute; by eexists).
    by apply elem_of_nil in Hn. }
  split; [exact Hall|]. exact (_initKnownGroups_any_state srp_extended Hall).
Defined.

Lemma knownGroup_missing_entry_witness :
  is_size (JNum 1024) /\ _didInitKnownGroups srp_altered = false /\
  (8192 ∈ _knownGroupSizes) /\
  _knownGroups srp_altered !! Number_toString 8192 = None /\
  exists st', knownGroup (JNum 1024) srp_altered = Throw TypeError st' /\
    _didInitKnownGroups st' = false.
Proof.
  assert (8192 ∈ _knownGroupSizes) as Hin.
  { unfold _knownGroupSizes. do 6 apply list_elem_of_further. apply list_elem_of_here. }
  assert (_knownGroups srp_altered !! Number_toString 8192 = None) as Hmiss
    by (vm_compute; reflexivity).
  split; [exact Logic.I|]. split; [reflexivity|]. split; [exact Hin|].
  split; [exact Hmiss|].
  exact (knownGroup_missing_entry (JNum 1024) 8192 srp_altered
           Logic.I eq_refl Hin Hmiss).
Defined.

Lemma knownGroup_outcome_witness :
  reachable srp_initial /\
  knownGroup (JStr "01024") srp_initial =
  Return (if bool_decide ("01024"%string ∈ size_strings.*2) then VGroup "01024"
          else if bool_decide ("01024"%string ∈ Object_prototype)
               then VInherited "01024"
          else VUndefined) srp_materialized.
Proof.
  split; [exact reachable_initial|].
  exact (knownGroup_outcome (JStr "01024") srp_initial reachable_initial).
Defined.

Lemma knownGroup_returns_materialized_witness :
  reachable srp_initial /\
  knownGroup (JStr "4096") srp_initial = Return (VGroup "4096") srp_materialized /\
  cataloged srp_materialized (VGroup "4096") (catalog_N "4096") (catalog_g "4096") /\
  1 < catalog_g "4096" < catalog_N "4096".
Proof.
  assert (knownGroup (JStr "4096") srp_initial =
          Return (VGroup "4096") srp_materialized) as Hcall
    by (vm_compute; reflexivity).
  split; [exact reachable_initial|]. split; [exact Hcall|].
  exact (knownGroup_returns_materialized (JStr "4096") srp_initial srp_materialized
           "4096" reachable_initial Hcall).
Defined.

Lemma catalog_wellformed_witness :
  ((8192, "8192"%string) ∈ size_strings) /\
  (2 ^ (8192 - 1) <= catalog_N "8192" < 2 ^ 8192 /\
   Z.odd (catalog_N "8192") = true /\
   1 < catalog_g "8192" < catalog_N "8192" /\
   Z.gcd (catalog_g "8192") (catalog_N "8192") = 1).
Proof.
  assert ((8192, "8192"%string) ∈ size_strings) as Hin.
  { unfold size_strings. do 6 apply list_elem_of_further. apply list_elem_of_here. }
  split; [exact Hin|]. exact (catalog_wellformed 8192 "8192" Hin).
Defined.

Lemma makeA_public_value_witness :
  cataloged srp_materialized (VGroup "1024") (catalog_N "1024") (catalog_g "1024") /\
  0 <= Sample.fromBits Sample.a /\
  makeA Sample.fromBits Sample.toBits Sample.a (VGroup "1024") srp_materialized =
    Return (Sample.toBits
      (catalog_g "1024" ^ Sample.fromBits Sample.a mod catalog_N "1024"))
      srp_materialized /\
  0 < catalog_g "1024" ^ Sample.fromBits Sample.a mod catalog_N "1024"
    < catalog_N "1024".
Proof.
  assert (0 <= Sample.fromBits Sample.a) as Ha by (vm_compute; discriminate).
  split; [exact cataloged_1024|]. split; [exact Ha|].
  exact (makeA_public_value Sample.fromBits Sample.toBits Sample.a (VGroup "1024")
           srp_materialized _ _ cataloged_1024 Ha).
Defined.

Lemma makeVerifier_range_witness :
  cataloged srp_materialized (VGroup "1024") (catalog_N "1024") (catalog_g "1024") /\
  0 <= Sample.fromBits (_makeX Sample.digest "alice" "password123" Sample.salt) /\
  makeVerifier Sample.digest Sample.fromBits Sample.toBits
    "alice" "password123" Sample.salt (VGroup "1024") srp_materialized =
  makeA Sample.fromBits Sample.toBits
    (_makeX Sample.digest "alice" "password123" Sample.salt)
    (VGroup "1024") srp_materialized /\
  exists v,
    makeVerifier Sample.digest Sample.fromBits Sample.toBits
      "alice" "password123" Sample.salt (VGroup "1024") srp_materialized =
    Return (Sample.toBits v) srp_materialized /\
    0 < v < catalog_N "1024".
Proof.
  assert (0 <= Sample.fromBits
            (_makeX Sample.digest "alice" "password123" Sample.salt)) as Hx
    by (vm_compute; discriminate).
  split; [exact cataloged_1024|]. split; [exact Hx|].
  exact (makeVerifier_range Sample.digest Sample.fromBits Sample.toBits
           "alice" "password123" Sample.salt (VGroup "1024") srp_materialized
           _ _ cataloged_1024 Hx).
Defined.

Lemma not_materialized_TypeError_witness :
  not_materialized srp_initial (VGroup "1024") /\
  makeVerifier Sample.digest Sample.fromBits Sample.toBits
    "alice" "password123" Sample.salt (VGroup "1024") srp_initial =
    Throw TypeError srp_initial /\
  makeA Sample.fromBits Sample.toBits Sample.a (VGroup "1024") srp_initial =
    Throw TypeError srp_initial /\
  makeClientKey Sample.digest Sample.fromBits Sample.toBits
    "alice" "password123" Sample.salt Sample.a Sample.A Sample.B
    (VGroup "1024") srp_initial = Throw TypeError srp_initial /\
  makeM1 Sample.digest Sample.toBits
    "alice" Sample.salt Sample.A Sample.B Sample.K (VGroup "1024") srp_initial =
    Throw TypeError srp_initial.
Proof.
  assert (not_materialized srp_initial (VGroup "1024")) as Hraw
    by (do 2 eexists; vm_compute; reflexivity).
  split; [exact Hraw|].
  exact (not_materialized_TypeError Sample.digest Sample.fromBits Sample.toBits
           "alice" "password123" Sample.salt Sample.a Sample.A Sample.B Sample.K
           (VGroup "1024") srp_initial Hraw).
Defined.

Lemma unknown_size_unusable_witness :
  reachable srp_initial /\ decimal_range 9999 /\ (9999 ∉ _knownGroupSizes) /\
  (knownGroup (JNum 9999) ≫=
     makeVerifier Sample.digest Sample.fromBits Sample.toBits
       "alice" "password123" Sample.salt) srp_initial =
    Throw TypeError srp_materialized /\
  (knownGroup (JNum 9999) ≫= makeA Sample.fromBits Sample.toBits Sample.a)
    srp_initial = Throw TypeError srp_materialized /\
  (knownGroup (JNum 9999) ≫=
     makeClientKey Sample.digest Sample.fromBits Sample.toBits
       "alice" "password123" Sample.salt Sample.a Sample.A Sample.B) srp_initial =
    Throw TypeError srp_materialized /\
  (knownGroup (JNum 9999) ≫=
     makeM1 Sample.digest Sample.toBits
       "alice" Sample.salt Sample.A Sample.B Sample.K) srp_initial =
    Throw TypeError srp_materialized.
Proof.
  assert (decimal_range 9999) as Hrange by (unfold decimal_range; lia).
  assert (9999 ∉ _knownGroupSizes) as Hnot.
  { unfold _knownGroupSizes. rewrite !not_elem_of_cons. repeat split; try lia.
    apply not_elem_of_nil. }
  split; [exact reachable_initial|]. split; [exact Hrange|]. split; [exact Hnot|].
  exact (unknown_size_unusable Sample.digest Sample.fromBits Sample.toBits
           9999 "alice" "password123" Sample.salt Sample.a Sample.A Sample.B
           Sample.K srp_initial reachable_initial Hrange Hnot).
Defined.

Lemma makeClientKey_zero_base_witness :
  cataloged srp_materialized (VGroup "1024") (catalog_N "1024") (catalog_g "1024") /\
  (let N := catalog_N "1024" in
   let g := catalog_g "1024" in
   let Nb := Sample.toBits N in
   let x := Sample.fromBits (_makeX short_digest "alice" "password123" Sample.salt) in
   let k := Sample.fromBits (short_digest (Nb ++ _pad (Sample.toBits g) Nb)) in
   let u := Sample.fromBits (short_digest (_pad Sample.A Nb ++ _pad degenerate_B Nb)) in
   (Sample.fromBits degenerate_B - k * (g ^ x mod N)) mod N = 0 /\
   0 < Sample.fromBits Sample.a + u * x /\
   makeClientKey short_digest Sample.fromBits Sample.toBits
     "alice" "password123" Sample.salt Sample.a Sample.A degenerate_B
     (VGroup "1024") srp_materialized =
   Return (Sample.toBits 0) srp_materialized).
Proof.
  split; [exact cataloged_1024|]. intros N g Nb x k u.
  assert ((Sample.fromBits degenerate_B - k * (g ^ x mod N)) mod N = 0) as Hbase.
  { rewrite <- (Zpow_facts.Zpow_mod_correct g x N) by (vm_compute; discriminate).
    vm_compute. reflexivity. }
  assert (0 < Sample.fromBits Sample.a + u * x) as Hexp by (vm_compute; reflexivity).
  split; [exact Hbase|]. split; [exact Hexp|].
  exact (makeClientKey_zero_base short_digest Sample.fromBits Sample.toBits
           "alice" "password123" Sample.salt Sample.a Sample.A degenerate_B
           (VGroup "1024") srp_materialized _ _ cataloged_1024 Hbase Hexp).
Defined.

Lemma group_bn_1024 :
  group_bn srp_materialized (VGroup "1024") (catalog_N "1024") (catalog_g "1024").
Proof. exists "1024"%string. split; [reflexivity|]. vm_compute. reflexivity. Qed.

Lemma _makeU_fixed_width_witness :
  group_bn srp_materialized (VGroup "1024") (catalog_N "1024") (catalog_g "1024") /\
  bitArray.bitLength Sample.A <= bitArray.bitLength (Sample.toBits (catalog_N "1024")) /\
  bitArray.bitLength Sample.B <= bitArray.bitLength (Sample.toBits (catalog_N "1024")) /\
  (let Nb := Sample.toBits (catalog_N "1024") in
   let input := replicate (length Nb - length Sample.A) false ++ Sample.A ++
                replicate (length Nb - length Sample.B) false ++ Sample.B in
   _makeU Sample.digest Sample.toBits Sample.A Sample.B (VGroup "1024")
     srp_materialized = Return (Sample.digest input) srp_materialized /\
   bitArray.bitLength input = 2 * bitArray.bitLength Nb).
Proof.
  assert (bitArray.bitLength Sample.A <=
          bitArray.bitLength (Sample.toBits (catalog_N "1024"))) as HA
    by (vm_compute; discriminate).
  assert (bitArray.bitLength Sample.B <=
          bitArray.bitLength (Sample.toBits (catalog_N "1024"))) as HB
    by (vm_compute; discriminate).
  split; [exact group_bn_1024|]. split; [exact HA|]. split; [exact HB|].
  exact (_makeU_fixed_width Sample.digest Sample.toBits Sample.A Sample.B
           (VGroup "1024") srp_materialized _ _ group_bn_1024 HA HB).
Defined.

Lemma _makeU_leading_zeros_witness :
  group_bn srp_materialized (VGroup "1024") (catalog_N "1024") (catalog_g "1024") /\
  (8 + length Sample.A <= length (Sample.toBits (catalog_N "1024")))%nat /\
  (16 + length Sample.B <= length (Sample.toBits (catalog_N "1024")))%nat /\
  _makeU Sample.digest Sample.toBits
    (replicate 8 false ++ Sample.A) (replicate 16 false ++ Sample.B)
    (VGroup "1024") srp_materialized =
  _makeU Sample.digest Sample.toBits Sample.A Sample.B (VGroup "1024")
    srp_materialized.
Proof.
  assert (8 + length Sample.A <= length (Sample.toBits (catalog_N "1024")))%nat
    as HA by (apply Nat.leb_le; vm_compute; reflexivity).
  assert (16 + length Sample.B <= length (Sample.toBits (catalog_N "1024")))%nat
    as HB by (apply Nat.leb_le; vm_compute; reflexivity).
  split; [exact group_bn_1024|]. split; [exact HA|]. split; [exact HB|].
  exact (_makeU_leading_zeros Sample.digest Sample.toBits 8 16 Sample.A Sample.B
           (VGroup "1024") srp_materialized _ _ group_bn_1024 HA HB).
Defined.

Lemma _makeK_fixed_width_witness :
  group_bn srp_materialized (VGroup "1024") (catalog_N "1024") (catalog_g "1024") /\
  bitArray.bitLength (Sample.toBits (catalog_g "1024")) <=
    bitArray.bitLength (Sample.toBits (catalog_N "1024")) /\
  (let Nb := Sample.toBits (catalog_N "1024") in
   let gb := Sample.toBits (catalog_g "1024") in
   let input := Nb ++ replicate (length Nb - length gb) false ++ gb in
   _makeK Sample.digest Sample.toBits (VGroup "1024") srp_materialized =
     Return (Sample.digest input) srp_materialized /\
   bitArray.bitLength input = 2 * bitArray.bitLength Nb).
Proof.
  assert (bitArray.bitLength (Sample.toBits (catalog_g "1024")) <=
          bitArray.bitLength (Sample.toBits (catalog_N "1024"))) as Hle
    by (vm_compute; discriminate).
  split; [exact group_bn_1024|]. split; [exact Hle|].
  exact (_makeK_fixed_width Sample.digest Sample.toBits (VGroup "1024")
           srp_materialized _ _ group_bn_1024 Hle).
Defined.

Lemma knownGroup_then_operation_witness :
  ((3072, "3072"%string) ∈ size_strings) /\ reachable srp_initial /\
  (knownGroup (JNum 3072) ≫=
     makeVerifier Sample.digest Sample.fromBits Sample.toBits
       "alice" "password123" Sample.salt) srp_initial =
    Return (Sample.toBits
      (catalog_g "3072" ^
         Sample.fromBits (_makeX Sample.digest "alice" "password123" Sample.salt)
       mod catalog_N "3072")) srp_materialized /\
  (knownGroup (JStr "3072") ≫= makeA Sample.fromBits Sample.toBits Sample.a)
    srp_initial =
    Return (Sample.toBits
      (catalog_g "3072" ^ Sample.fromBits Sample.a mod catalog_N "3072"))
      srp_materialized.
Proof.
  assert ((3072, "3072"%string) ∈ size_strings) as Hin.
  { unfold size_strings. do 3 apply list_elem_of_further. apply list_elem_of_here. }
  split; [exact Hin|]. split; [exact reachable_initial|].
  exact (knownGroup_then_operation Sample.digest Sample.fromBits Sample.toBits
           3072 "3072" "alice" "password123" Sample.salt Sample.a srp_initial
           Hin reachable_initial).
Defined.
